(** * AegisOS license kernel modules: a shallow embedding

  Two C sources are modelled here:

  - [aegis-os-core/kernel-module/aegis_lkm_stub.c] (module [Core]):
    reads the token file, runs the stub validator, activates a tier and
    exports [aegis_is_licensed] / [aegis_get_tier];
  - [aegis-os-freemium/kernel-module/aegis_lkm.c] (module [Freemium]):
    the sysfs attributes [version], [status], [features] and
    [disabled_features] over the static [license_tier].

  Conventions.  A [char *] is [None] for [NULL] and otherwise [Some s], with
  [s] the characters in front of the terminating NUL.  A function returning
  [0] or [-E] returns a [status].  Globals live in a record that is threaded
  through a state monad whose failure case stands for a kernel fault (a
  dereferenced [NULL] or an out-of-bounds read).  [printk] appends to the
  kernel log, which is part of the state; heap bookkeeping
  ([kmalloc]/[kfree]) is reduced to whether the allocation succeeds. *)

From Stdlib Require Import ZArith List String Ascii Bool Lia.
From Stdlib Require Import DecimalString DecimalZ.
Import ListNotations.
Open Scope string_scope.

(** ** C strings *)

Module CString.

Definition NUL : ascii := Ascii.zero.

(** The C string held by a byte buffer that is followed by a NUL: the C
    library stops at the first NUL, which may sit inside the data. *)
Fixpoint c_str (buf : string) : string :=
  match buf with
  | EmptyString => EmptyString
  | String c rest =>
      if Ascii.eqb c NUL then EmptyString else String c (c_str rest)
  end.

Definition strlen (s : string) : nat := String.length s.

(** [strstr haystack needle]: offset of the first occurrence, [None] for the
    [NULL] result. *)
Fixpoint strstr (haystack needle : string) : option nat :=
  if prefix needle haystack then Some 0
  else match haystack with
       | EmptyString => None
       | String _ rest => option_map S (strstr rest needle)
       end.

(** [strcmp]: the sign of the first difference; the sources only test the
    result against [0]. *)
Fixpoint strcmp (a b : string) : Z :=
  match a, b with
  | EmptyString, EmptyString => 0
  | EmptyString, String _ _ => -1
  | String _ _, EmptyString => 1
  | String x a', String y b' =>
      if Ascii.eqb x y then strcmp a' b'
      else if (nat_of_ascii x <? nat_of_ascii y)%nat then -1 else 1
  end%Z.

(** The fields of [s] between occurrences of [sep] (always at least one). *)
Fixpoint fields (sep : ascii) (s : string) : list string :=
  match s with
  | EmptyString => [EmptyString]
  | String c rest =>
      if Ascii.eqb c sep then EmptyString :: fields sep rest
      else match fields sep rest with
           | f :: fs => String c f :: fs
           | [] => [String c EmptyString]
           end
  end.

(** [needle] occurs in [haystack] as a contiguous run of characters. *)
Definition Substring (needle haystack : string) : Prop :=
  exists pre post, haystack = pre ++ needle ++ post.

End CString.

(** ** Return codes and the kernel log *)

Inductive errno : Set := ENOMEM | ENOENT | EIO | EINVAL.

(** An [int] result that is [0] or a negated errno constant.  The constants
    are non-zero, so [ret != 0] is [ret <> Success]. *)
Inductive status : Set :=
| Success
| Failure (e : errno).

Definition is_zero (r : status) : bool :=
  match r with Success => true | Failure _ => false end.

Inductive loglevel : Set := KERN_ERR | KERN_WARNING | KERN_INFO.

Inductive vararg : Set :=
| VStr (s : string)
| VInt (n : Z).

(** One [printk] call: level, format (kept as the source writes it) and the
    values of its variadic arguments. *)
Record kmsg : Set := Printk {
  level : loglevel;
  format : string;
  varargs : list vararg
}.

(** ** aegis_lkm_stub.c *)

Module Core.
Import CString.

Definition AEGIS_TOKEN_PATH : string := "/etc/aegis/auth.token".
Definition AEGIS_TOKEN_MAX_SIZE : nat := 2048.

(** The two statics of the module and the kernel log. *)
Record kernel : Set := Kernel {
  aegis_license_active : bool;
  aegis_license_tier : string;
  dmesg : list kmsg
}.

(** What the module's [.data] holds when it is loaded. *)
Definition module_loaded : kernel :=
  {| aegis_license_active := false;
     aegis_license_tier := "none";
     dmesg := [] |}.

(** What the host offers to [aegis_read_token_file]: whether [kmalloc]
    succeeds, and the file at [AEGIS_TOKEN_PATH], if [filp_open] finds one. *)
Inductive inode : Set :=
| Unreadable
| Regular (data : string).

Record host : Set := Host {
  kmalloc_ok : bool;
  auth_token : option inode
}.

(** [kernel_read file buf count &pos] at [pos = 0]: bytes read (or a negative
    value, [None]) and the bytes stored. *)
Definition kernel_read (f : inode) (count : nat) : option (nat * string) :=
  match f with
  | Unreadable => None
  | Regular data =>
      let got := substring 0 count data in
      Some (String.length got, got)
  end.

(** State monad over [kernel]; [None] is a fault. *)
Definition kern (A : Type) : Type := kernel -> option (A * kernel).

Definition ret {A} (a : A) : kern A := fun k => Some (a, k).

Definition bind {A B} (c : kern A) (f : A -> kern B) : kern B :=
  fun k => match c k with
           | Some (a, k') => f a k'
           | None => None
           end.

Definition fault {A} : kern A := fun _ => None.

(** [k] with [log] appended to the kernel log. *)
Definition logged (k : kernel) (log : list kmsg) : kernel :=
  {| aegis_license_active := aegis_license_active k;
     aegis_license_tier := aegis_license_tier k;
     dmesg := dmesg k ++ log |}.

Definition printk (l : loglevel) (fmt : string) (args : list vararg)
  : kern unit :=
  fun k => Some (tt, logged k [Printk l fmt args]).

Definition load_active : kern bool :=
  fun k => Some (aegis_license_active k, k).

Definition load_tier : kern string :=
  fun k => Some (aegis_license_tier k, k).

Definition store_active (b : bool) : kern unit :=
  fun k => Some (tt, {| aegis_license_active := b;
                        aegis_license_tier := aegis_license_tier k;
                        dmesg := dmesg k |}).

Definition store_tier (t : string) : kern unit :=
  fun k => Some (tt, {| aegis_license_active := aegis_license_active k;
                        aegis_license_tier := t;
                        dmesg := dmesg k |}).

Declare Scope kern_scope.
Delimit Scope kern_scope with kern.
Notation "x <- c ;; f" := (bind c (fun x => f))
  (at level 61, c at next level, right associativity) : kern_scope.
Notation "' p <- c ;; f" := (bind c (fun x => let 'p := x in f))
  (at level 61, p pattern, c at next level, right associativity) : kern_scope.
Notation "c ;; f" := (bind c (fun _ => f))
  (at level 61, right associativity) : kern_scope.
Local Open Scope kern_scope.

(** [aegis_read_token_file(&token)]: the status, and what [*token_buffer]
    holds afterwards ([token_buffer] is its value on entry). *)
Definition aegis_read_token_file (h : host) (token_buffer : option string)
  : kern (status * option string) :=
  printk KERN_INFO "Aegis: Attempting to read token from %s\n"
         [VStr AEGIS_TOKEN_PATH] ;;
  if negb (kmalloc_ok h) then
    printk KERN_ERR "Aegis: Failed to allocate memory for token buffer\n" [] ;;
    ret (Failure ENOMEM, token_buffer)
  else
    match auth_token h with
    | None =>
        printk KERN_WARNING
               "Aegis: Token file not found - running in unlicensed mode\n" [] ;;
        ret (Failure ENOENT, token_buffer)
    | Some token_file =>
        match kernel_read token_file (AEGIS_TOKEN_MAX_SIZE - 1) with
        | None =>
            printk KERN_ERR "Aegis: Failed to read token file\n" [] ;;
            ret (Failure EIO, token_buffer)
        | Some (bytes_read, buffer) =>
            (* buffer[bytes_read] = '\0' *)
            printk KERN_INFO
                   "Aegis: Token file read successfully (%zd bytes)\n"
                   [VInt (Z.of_nat bytes_read)] ;;
            ret (Success, Some (c_str buffer))
        end
    end.

Definition found (p : option nat) : bool :=
  match p with Some _ => true | None => false end.

(** [aegis_validate_token_stub(token, &tier)]: the status and [*tier]. *)
Definition aegis_validate_token_stub (token : option string)
           (tier : option string) : kern (status * option string) :=
  printk KERN_INFO "Aegis: Validating token (stub implementation)\n" [] ;;
  match token with
  | None =>
      printk KERN_ERR "Aegis: Invalid token format\n" [] ;;
      ret (Failure EINVAL, tier)
  | Some tok =>
      if (strlen tok <? 10)%nat then
        printk KERN_ERR "Aegis: Invalid token format\n" [] ;;
        ret (Failure EINVAL, tier)
      else
        let tier :=
          if found (strstr tok "gamer") then "gamer"
          else if found (strstr tok "ai") then "ai"
          else if found (strstr tok "server") then "server"
          else if found (strstr tok "basic") then "basic"
          else if found (strstr tok "freemium") then "freemium"
          else "unknown" in
        printk KERN_INFO "Aegis: Token validation successful - Tier: %s\n"
               [VStr tier] ;;
        ret (Success, Some tier)
  end.

(** [aegis_activate_features(tier)], [tier] a valid pointer. *)
Definition aegis_activate_features (tier : string) : kern unit :=
  printk KERN_INFO "Aegis: Activating features for tier: %s\n" [VStr tier] ;;
  (if (strcmp tier "freemium" =? 0)%Z then
     printk KERN_INFO "Aegis: Freemium mode - Basic features only\n" []
   else if (strcmp tier "basic" =? 0)%Z then
     printk KERN_INFO "Aegis: Basic tier - Security updates enabled\n" []
   else if (strcmp tier "gamer" =? 0)%Z then
     printk KERN_INFO "Aegis: Gamer tier - Gaming optimizations enabled\n" [] ;;
     printk KERN_INFO "Aegis:   - AI-powered frame optimization\n" [] ;;
     printk KERN_INFO "Aegis:   - P2P network tuning\n" [] ;;
     printk KERN_INFO "Aegis:   - Low-latency mode\n" []
   else if (strcmp tier "ai" =? 0)%Z then
     printk KERN_INFO "Aegis: AI tier - AI development features enabled\n" [] ;;
     printk KERN_INFO "Aegis:   - Docker integration\n" [] ;;
     printk KERN_INFO "Aegis:   - GPU acceleration\n" [] ;;
     printk KERN_INFO "Aegis:   - Container optimization\n" []
   else if (strcmp tier "server" =? 0)%Z then
     printk KERN_INFO "Aegis: Server tier - Server optimizations enabled\n" [] ;;
     printk KERN_INFO "Aegis:   - AI server acceleration\n" [] ;;
     printk KERN_INFO "Aegis:   - Multi-tenant isolation\n" [] ;;
     printk KERN_INFO "Aegis:   - High-performance networking\n" []
   else ret tt) ;;
  store_active true ;;
  store_tier tier.

(** [aegis_lkm_init].  Both locals start as [NULL]. *)
Definition aegis_lkm_init (h : host) : kern status :=
  let token : option string := None in
  let tier : option string := None in
  printk KERN_INFO "Aegis OS Kernel Module v1.0.0 initializing...\n" [] ;;
  printk KERN_INFO "Aegis: Copyright (c) 2024 Aegis OS Development Team\n" [] ;;
  '(r, token) <- aegis_read_token_file h token ;;
  if negb (is_zero r) then
    printk KERN_WARNING
           "Aegis: No valid license found - running in restricted mode\n" [] ;;
    store_active false ;;
    ret Success
  else
    '(r, tier) <- aegis_validate_token_stub token tier ;;
    (if is_zero r then
       match tier with
       | Some t => aegis_activate_features t
       | None => fault
       end
     else
       printk KERN_ERR "Aegis: Token validation failed\n" [] ;;
       store_active false) ;;
    (* kfree(token) when token is not NULL *)
    active <- load_active ;;
    printk KERN_INFO "Aegis: Module initialization complete (License: %s)\n"
           [VStr (if active then "ACTIVE" else "INACTIVE")] ;;
    ret Success.

(** [aegis_lkm_exit]. *)
Definition aegis_lkm_exit : kern unit :=
  printk KERN_INFO "Aegis: Kernel module unloading...\n" [] ;;
  active <- load_active ;;
  (if active then
     t <- load_tier ;;
     printk KERN_INFO "Aegis: Deactivating tier '%s' features\n" [VStr t]
   else ret tt) ;;
  store_active false ;;
  printk KERN_INFO "Aegis: Module unloaded successfully\n" [].

(** The exported queries. *)
Definition aegis_is_licensed (k : kernel) : bool := aegis_license_active k.

Definition aegis_get_tier (k : kernel) : string := aegis_license_tier k.

(** The C string [aegis_lkm_init] gets to validate when the token file holds
    [data]: at most [AEGIS_TOKEN_MAX_SIZE - 1] bytes, cut at the first NUL. *)
Definition token_of_file (data : string) : string :=
  c_str (substring 0 (AEGIS_TOKEN_MAX_SIZE - 1) data).

(** The three ways the loader fails, and the one way it succeeds. *)
Definition load_fails (h : host) : Prop :=
  kmalloc_ok h = false \/ auth_token h = None
  \/ auth_token h = Some Unreadable.

Definition load_gets (h : host) (data : string) : Prop :=
  kmalloc_ok h = true /\ auth_token h = Some (Regular data).

(** The pair of values the two exported queries report. *)
Definition license_state (k : kernel) : bool * string :=
  (aegis_is_licensed k, aegis_get_tier k).

(** The state a computation leaves behind. *)
Definition exec {A} (c : kern A) (k : kernel) : option kernel :=
  match c k with
  | Some (_, k') => Some k'
  | None => None
  end.

(** The feature lines of a kernel log: [aegis_activate_features] announces each
    feature it turns on with a line that starts with this bullet. *)
Definition feature_bullet : string := "Aegis:   - ".

Definition announced_features (log : list kmsg) : list string :=
  map format (filter (fun m => prefix feature_bullet (format m)) log).

(** The keywords of [aegis_validate_token_stub], in the order it tests them,
    and the strings it can store in [*tier]. *)
Definition tier_keywords : list string :=
  ["gamer"; "ai"; "server"; "basic"; "freemium"].

Definition stub_tiers : list string := tier_keywords ++ ["unknown"].

(** First-match precedence, stated on its own: [resolves kws tok t] when [t]
    is the first keyword of [kws] that occurs in [tok], and ["unknown"] when
    none does. *)
Inductive resolves : list string -> string -> string -> Prop :=
| resolves_none tok : resolves [] tok "unknown"
| resolves_hit kw kws tok :
    Substring kw tok -> resolves (kw :: kws) tok kw
| resolves_skip kw kws tok t :
    ~ Substring kw tok -> resolves kws tok t -> resolves (kw :: kws) tok t.

(** The token format of the specification: [header.payload.signature]. *)
Definition jwt_segments (tok : string) : list string := fields "." tok.

Definition three_segments (tok : string) : bool :=
  (List.length (jwt_segments tok) =? 3)%nat.

(** The state transitions of the module: initialisation against any host,
    activation of a tier the validator can produce (the only call of
    [aegis_activate_features] passes the validator's result), and unload. *)
Inductive step : kernel -> kernel -> Prop :=
| step_init h k r k' :
    aegis_lkm_init h k = Some (r, k') -> step k k'
| step_activate t k k' :
    In t stub_tiers -> exec (aegis_activate_features t) k = Some k' -> step k k'
| step_exit k k' :
    exec aegis_lkm_exit k = Some k' -> step k k'.

Inductive reachable : kernel -> Prop :=
| reachable_load : reachable module_loaded
| reachable_step k k' : reachable k -> step k k' -> reachable k'.

(** The log line that records an activation of [t]. *)
Definition activation_record (t : string) : kmsg :=
  Printk KERN_INFO "Aegis: Activating features for tier: %s\n" [VStr t].

(** While the licence is active, the stored tier is one the validator
    produces and the log holds the record of its activation. *)
Definition tier_activated (k : kernel) : Prop :=
  aegis_license_active k = true ->
  In (aegis_license_tier k) stub_tiers
  /\ In (activation_record (aegis_license_tier k)) (dmesg k).

(** No activation is recorded in [log]. *)
Definition never_activated (log : list kmsg) : Prop :=
  forall t, ~ In (activation_record t) log.

(** The host lets [aegis_lkm_init] activate a tier: the token file can be
    read and its C string has at least 10 characters. *)
Definition accepts (h : host) : Prop :=
  exists data, load_gets h data /\ (10 <= strlen (token_of_file data))%nat.

(** The feature lines one activation of [t] writes. *)
Definition features_announced_by (t : string) : list string :=
  match exec (aegis_activate_features t) module_loaded with
  | Some k => announced_features (dmesg k)
  | None => []
  end.

(** What a [printk] argument may be without repeating token bytes: a number,
    the path of the token file, one of the validator's tier literals, or the
    word for the licence flag. *)
Definition benign_arg (a : vararg) : Prop :=
  match a with
  | VInt _ => True
  | VStr s =>
      s = AEGIS_TOKEN_PATH \/ In s stub_tiers
      \/ s = "ACTIVE" \/ s = "INACTIVE"
  end.

Definition benign_msg (m : kmsg) : Prop :=
  Forall benign_arg (varargs m).

End Core.

(** ** aegis_lkm_stub.c: the buffer and the file handle

    The same two functions, followed for what they acquire and release:
    [kmalloc]/[kfree] of the token buffer and [filp_open]/[filp_close] of the
    token file.  A pointer is kept as whether it is non-[NULL]; releasing what
    is not held is a fault. *)

Module Heap.
Import Core.

Record resources : Set := Resources {
  live_buffers : nat;
  open_files : nat
}.

Definition res (A : Type) : Type := resources -> option (A * resources).

Definition ret {A} (a : A) : res A := fun r => Some (a, r).

Definition bind {A B} (c : res A) (f : A -> res B) : res B :=
  fun r => match c r with
           | Some (a, r') => f a r'
           | None => None
           end.

(** [kmalloc]: the pointer is non-[NULL] when the allocation succeeds. *)
Definition kmalloc (ok : bool) : res bool :=
  fun r => if ok
           then Some (true, {| live_buffers := S (live_buffers r);
                               open_files := open_files r |})
           else Some (false, r).

Definition kfree : res unit :=
  fun r => match live_buffers r with
           | O => None
           | S n => Some (tt, {| live_buffers := n;
                                 open_files := open_files r |})
           end.

(** [filp_open]: the file, or [None] for an [ERR_PTR]. *)
Definition filp_open (f : option inode) : res (option inode) :=
  fun r => match f with
           | Some i => Some (Some i, {| live_buffers := live_buffers r;
                                        open_files := S (open_files r) |})
           | None => Some (None, r)
           end.

Definition filp_close : res unit :=
  fun r => match open_files r with
           | O => None
           | S n => Some (tt, {| live_buffers := live_buffers r;
                                 open_files := n |})
           end.

Declare Scope res_scope.
Delimit Scope res_scope with res.
Notation "x <- c ;; f" := (bind c (fun x => f))
  (at level 61, c at next level, right associativity) : res_scope.
Notation "' p <- c ;; f" := (bind c (fun x => let 'p := x in f))
  (at level 61, p pattern, c at next level, right associativity) : res_scope.
Notation "c ;; f" := (bind c (fun _ => f))
  (at level 61, right associativity) : res_scope.
Local Open Scope res_scope.

(** [aegis_read_token_file(&token)]: the status and whether [*token_buffer]
    is non-[NULL] afterwards. *)
Definition aegis_read_token_file (h : host) (token_buffer : bool)
  : res (status * bool) :=
  buffer <- kmalloc (kmalloc_ok h) ;;
  if negb buffer then ret (Failure ENOMEM, token_buffer)
  else
    token_file <- filp_open (auth_token h) ;;
    match token_file with
    | None =>
        kfree ;;
        ret (Failure ENOENT, token_buffer)
    | Some f =>
        let bytes_read := kernel_read f (AEGIS_TOKEN_MAX_SIZE - 1) in
        filp_close ;;
        match bytes_read with
        | None =>
            kfree ;;
            ret (Failure EIO, token_buffer)
        | Some _ => ret (Success, true)
        end
    end.

(** [aegis_lkm_init]: validation and activation neither acquire nor release
    anything; the buffer is freed when [token] is non-[NULL]. *)
Definition aegis_lkm_init (h : host) : res status :=
  let token := false in
  '(r, token) <- aegis_read_token_file h token ;;
  if negb (is_zero r) then ret Success
  else
    (if token then kfree else ret tt) ;;
    ret Success.

End Heap.

(** ** aegis_lkm.c (freemium edition) *)

Module Freemium.
Import CString.

Definition AEGIS_VERSION : string := "1.0.0-freemium".
Definition AEGIS_LICENSE_TIER : Z := 2.

(** The static [license_tier]. *)
Record sysfs_module : Set := SysfsModule {
  license_tier : Z
}.

Definition module_loaded : sysfs_module :=
  {| license_tier := AEGIS_LICENSE_TIER |}.

Definition LF : string := String (ascii_of_nat 10) EmptyString.

(** [sprintf(buf, "%s\n", s)] and [sprintf(buf, "%s", s)]: the number of
    characters written and the contents of [buf]. *)
Definition sprintf_line (s : string) : Z * string :=
  let out := s ++ LF in (Z.of_nat (String.length out), out).

Definition sprintf_str (s : string) : Z * string :=
  (Z.of_nat (String.length s), s).

(** A read of [a[i]]; [None] when [i] is outside the array. *)
Definition array_read (a : list string) (i : Z) : option string :=
  if ((i <? 0) || (Z.of_nat (List.length a) <=? i))%Z then None
  else nth_error a (Z.to_nat i).

Definition status_names : list string :=
  ["unlicensed"; "professional"; "freemium"; "gamer"; "ai_developer"; "server"].

(** [status_show]; [None] is an out-of-bounds read of [status_names]. *)
Definition status_show (m : sysfs_module) : option (Z * string) :=
  if ((license_tier m >=? 0) && (license_tier m <=? 5))%Z then
    match array_read status_names (license_tier m) with
    | Some name => Some (sprintf_line name)
    | None => None
    end
  else Some (sprintf_line "unknown").

Definition version_show (m : sysfs_module) : Z * string :=
  sprintf_line AEGIS_VERSION.

Definition freemium_features : string :=
  "basic_monitoring" ++ LF ++
  "gaming_optimization" ++ LF ++
  "community_support" ++ LF ++
  "proton_wine" ++ LF ++
  "system_utilities" ++ LF.

Definition features_show (m : sysfs_module) : Z * string :=
  sprintf_str freemium_features.

Definition disabled_features : string :=
  "priority_updates" ++ LF ++
  "ai_optimization" ++ LF ++
  "professional_support" ++ LF ++
  "advanced_monitoring" ++ LF ++
  "kernel_enhancements" ++ LF ++
  "enterprise_features" ++ LF.

Definition disabled_features_show (m : sysfs_module) : Z * string :=
  sprintf_str disabled_features.

(** [MODULE_INFO(tier, ...)]. *)
Definition modinfo_tier : string := "freemium".

(** [MODULE_INFO(features, ...)]. *)
Definition modinfo_features : string :=
  "basic_monitoring,gaming_optimization,community_support".

(** The feature identifiers of an attribute: its newline-terminated lines. *)
Definition nonempty (s : string) : bool :=
  match s with EmptyString => false | String _ _ => true end.

Definition feature_ids (buf : string) : list string :=
  filter nonempty (fields (ascii_of_nat 10) buf).

Definition featuresFor (m : sysfs_module) : list string :=
  feature_ids (snd (features_show m)).

Definition disabledFeaturesFor (m : sysfs_module) : list string :=
  feature_ids (snd (disabled_features_show m)).

(** [tier_show]: [sprintf(buf, "%d\n", license_tier)]. *)
Definition sprintf_int_line (n : Z) : Z * string :=
  sprintf_line (NilEmpty.string_of_int (Z.to_int n)).

Definition tier_show (m : sysfs_module) : Z * string :=
  sprintf_int_line (license_tier m).

(** A [struct kobj_attribute] as [__ATTR(name, mode, show, store)] fills it;
    [attr_store] is [None] for a [NULL] store. *)
Record kobj_attribute : Type := Attr {
  attr_name : string;
  attr_mode : N;
  attr_show : sysfs_module -> option (Z * string);
  attr_store : option (sysfs_module -> string -> Z * sysfs_module)
}.

(** The octal mode [0444]. *)
Definition mode_0444 : N := (4 * 64 + 4 * 8 + 4)%N.

Definition tier_attribute : kobj_attribute :=
  Attr "tier" mode_0444 (fun m => Some (tier_show m)) None.

Definition version_attribute : kobj_attribute :=
  Attr "version" mode_0444 (fun m => Some (version_show m)) None.

Definition status_attribute : kobj_attribute :=
  Attr "status" mode_0444 status_show None.

Definition features_attribute : kobj_attribute :=
  Attr "features" mode_0444 (fun m => Some (features_show m)) None.

Definition disabled_features_attribute : kobj_attribute :=
  Attr "disabled_features" mode_0444
       (fun m => Some (disabled_features_show m)) None.

(** [aegis_attrs], without its [NULL] terminator. *)
Definition aegis_attrs : list kobj_attribute :=
  [tier_attribute; version_attribute; status_attribute; features_attribute;
   disabled_features_attribute].

(** The directories below [/sys/kernel], each with its attribute files. *)
Definition sysfs : Type := list (string * list kobj_attribute).

(** The module in the running kernel: its statics, [/sys/kernel] and the
    kernel log. *)
Record machine : Type := Machine {
  statics : sysfs_module;
  aegis_kobj : option string;
  sys_kernel : sysfs;
  klog : list kmsg
}.

(** What the host decides: whether the kobject can be allocated, and what
    [sysfs_create_group] returns. *)
Record sysfs_host : Set := SysfsHost {
  kobject_alloc_ok : bool;
  create_group_ret : status
}.

Definition has_dir (name : string) (t : sysfs) : bool :=
  existsb (fun d => String.eqb (fst d) name) t.

(** [kobject_create_and_add(name, kernel_kobj)]: a new, empty directory, or
    [NULL] when the allocation fails or the name is taken. *)
Definition kobject_create_and_add (hst : sysfs_host) (name : string)
           (t : sysfs) : option string * sysfs :=
  if kobject_alloc_ok hst && negb (has_dir name t)
  then (Some name, (t ++ [(name, [])])%list)
  else (None, t).

(** [sysfs_create_group(kobj, grp)]: all the files of the group, or none. *)
Definition sysfs_create_group (hst : sysfs_host) (kobj : string)
           (grp : list kobj_attribute) (t : sysfs) : status * sysfs :=
  match create_group_ret hst with
  | Success =>
      (Success,
       map (fun d => if String.eqb (fst d) kobj
                     then (fst d, (snd d ++ grp)%list) else d) t)
  | Failure e => (Failure e, t)
  end.

Definition in_group (grp : list kobj_attribute) (a : kobj_attribute) : bool :=
  existsb (fun g => String.eqb (attr_name g) (attr_name a)) grp.

Definition sysfs_remove_group (kobj : string) (grp : list kobj_attribute)
           (t : sysfs) : sysfs :=
  map (fun d => if String.eqb (fst d) kobj
                then (fst d, filter (fun a => negb (in_group grp a)) (snd d))
                else d) t.

(** [kobject_put] of the only reference: the directory goes away. *)
Definition kobject_put (kobj : string) (t : sysfs) : sysfs :=
  filter (fun d => negb (String.eqb (fst d) kobj)) t.

Definition printk (l : loglevel) (fmt : string) (args : list vararg)
           (mc : machine) : machine :=
  {| statics := statics mc;
     aegis_kobj := aegis_kobj mc;
     sys_kernel := sys_kernel mc;
     klog := klog mc ++ [Printk l fmt args] |}.

Definition set_kobj (p : option string) (t : sysfs) (mc : machine) : machine :=
  {| statics := statics mc;
     aegis_kobj := p;
     sys_kernel := t;
     klog := klog mc |}.

Definition set_sysfs (t : sysfs) (mc : machine) : machine :=
  set_kobj (aegis_kobj mc) t mc.

(** [aegis_lkm_init] of the freemium module. *)
Definition aegis_lkm_init (hst : sysfs_host) (mc : machine)
  : status * machine :=
  let mc := printk KERN_INFO
                   "Aegis OS: Initializing license kernel module v%s\n"
                   [VStr AEGIS_VERSION] mc in
  let mc := printk KERN_INFO "Aegis OS: License tier: %d (freemium)\n"
                   [VInt (license_tier (statics mc))] mc in
  let '(p, t) := kobject_create_and_add hst "aegis" (sys_kernel mc) in
  let mc := set_kobj p t mc in
  match aegis_kobj mc with
  | None =>
      let mc := printk KERN_ERR
                       "Aegis OS: Failed to create sysfs directory\n" [] mc in
      (Failure ENOMEM, mc)
  | Some kobj =>
      let '(retval, t) :=
        sysfs_create_group hst kobj aegis_attrs (sys_kernel mc) in
      let mc := set_sysfs t mc in
      if negb (is_zero retval) then
        let mc := printk KERN_ERR
                         "Aegis OS: Failed to create sysfs attributes\n" []
                         mc in
        let mc := set_sysfs (kobject_put kobj (sys_kernel mc)) mc in
        (retval, mc)
      else
        let mc := printk KERN_INFO
                         "Aegis OS: License kernel module loaded successfully\n"
                         [] mc in
        let mc := printk KERN_INFO
                         "Aegis OS: SysFS interface available at /sys/kernel/aegis/\n"
                         [] mc in
        (Success, mc)
  end.

(** [aegis_lkm_exit] of the freemium module. *)
Definition aegis_lkm_exit (mc : machine) : machine :=
  let mc := printk KERN_INFO "Aegis OS: Unloading license kernel module\n" []
                   mc in
  let mc :=
    match aegis_kobj mc with
    | Some kobj =>
        let mc := set_sysfs
                    (sysfs_remove_group kobj aegis_attrs (sys_kernel mc)) mc in
        set_sysfs (kobject_put kobj (sys_kernel mc)) mc
    | None => mc
    end in
  printk KERN_INFO "Aegis OS: License kernel module unloaded\n" [] mc.

(** The module as [insmod] finds it, in a kernel whose [/sys/kernel] holds
    [t]. *)
Definition insmod (t : sysfs) : machine :=
  {| statics := module_loaded;
     aegis_kobj := None;
     sys_kernel := t;
     klog := [] |}.

(** A read of [/sys/kernel/<dir>/<file>]: the attribute's [show] runs on the
    module's statics. *)
Inductive read_result : Set :=
| NoSuchFile
| ReadFault
| Text (n : Z) (buf : string).

Definition find_dir (dir : string) (t : sysfs) : option (list kobj_attribute) :=
  option_map snd (find (fun d => String.eqb (fst d) dir) t).

Definition find_attr (file : string) (files : list kobj_attribute)
  : option kobj_attribute :=
  find (fun a => String.eqb (attr_name a) file) files.

Definition sysfs_read (mc : machine) (dir file : string) : read_result :=
  match find_dir dir (sys_kernel mc) with
  | None => NoSuchFile
  | Some files =>
      match find_attr file files with
      | None => NoSuchFile
      | Some a =>
          match attr_show a (statics mc) with
          | Some (n, buf) => Text n buf
          | None => ReadFault
          end
      end
  end.

(** The life of the module: loads that succeed and unloads. *)
Inductive lkm_step : machine -> machine -> Prop :=
| lkm_init hst mc mc' :
    aegis_lkm_init hst mc = (Success, mc') -> lkm_step mc mc'
| lkm_exit mc : lkm_step mc (aegis_lkm_exit mc).

Inductive lkm_reachable (t : sysfs) : machine -> Prop :=
| lkm_insmod : lkm_reachable t (insmod t)
| lkm_next mc mc' :
    lkm_reachable t mc -> lkm_step mc mc' -> lkm_reachable t mc'.

End Freemium.

(** ** Facts about the C string functions *)

Section CStringFacts.
Import CString.

Lemma prefix_true_iff (n h : string) :
  prefix n h = true <-> exists post, h = n ++ post.
Proof.
  revert h; induction n as [|c n IH]; intros [|d h]; simpl.
  - split; [intros _; now exists "" | reflexivity].
  - split; [intros _; now exists (String d h) | reflexivity].
  - split; [discriminate | intros [post E]; discriminate].
  - destruct (ascii_dec c d) as [->|ne].
    + rewrite IH; split; intros [post E]; exists post.
      * now rewrite E.
      * now injection E.
    + split; [discriminate | intros [post E]; injection E; congruence].
Qed.

Lemma strstr_nil (n : string) :
  strstr "" n = if prefix n "" then Some 0 else None.
Proof. reflexivity. Qed.

Lemma strstr_cons (c : ascii) (h n : string) :
  strstr (String c h) n =
  if prefix n (String c h) then Some 0 else option_map S (strstr h n).
Proof. reflexivity. Qed.

Lemma strstr_found_iff (h n : string) :
  (exists i, strstr h n = Some i) <-> Substring n h.
Proof.
  split.
  - induction h as [|c h IH].
    + rewrite strstr_nil; destruct (prefix n "") eqn:P.
      * intros _; apply prefix_true_iff in P as [post E].
        now exists "", post.
      * intros [i E]; discriminate E.
    + rewrite strstr_cons; destruct (prefix n (String c h)) eqn:P.
      * intros _; apply prefix_true_iff in P as [post E].
        now exists "", post.
      * intros [i E]; destruct (strstr h n) as [j|]; [|discriminate E].
        destruct IH as (pre & post & E'); [now exists j|].
        exists (String c pre), post; simpl; now rewrite E'.
  - intros (pre & post & E); subst h.
    induction pre as [|c pre IH].
    + assert (P : prefix n (n ++ post) = true)
        by (apply prefix_true_iff; now exists post).
      change ("" ++ n ++ post) with (n ++ post).
      destruct (n ++ post); [rewrite strstr_nil | rewrite strstr_cons];
        rewrite P; now exists 0.
    + change (String c pre ++ n ++ post) with (String c (pre ++ n ++ post)).
      rewrite strstr_cons.
      destruct (prefix n (String c (pre ++ n ++ post))); [now exists 0|].
      destruct IH as [i ->]; now exists (S i).
Qed.

Lemma found_true_iff (h n : string) :
  Core.found (strstr h n) = true <-> Substring n h.
Proof.
  rewrite <- strstr_found_iff; destruct (strstr h n) as [i|]; simpl.
  - split; [now exists i | reflexivity].
  - split; [discriminate | intros [i E]; discriminate].
Qed.

Lemma found_false_iff (h n : string) :
  Core.found (strstr h n) = false <-> ~ Substring n h.
Proof.
  rewrite <- found_true_iff; destruct (Core.found (strstr h n)); split;
    congruence.
Qed.

Lemma strcmp_zero_iff (a b : string) : strcmp a b = 0%Z <-> a = b.
Proof.
  revert b; induction a as [|x a IH]; intros [|y b]; simpl;
    try (split; [discriminate | congruence]); try tauto.
  destruct (Ascii.eqb_spec x y) as [->|ne].
  - rewrite IH; split; congruence.
  - destruct (nat_of_ascii x <? nat_of_ascii y)%nat;
      (split; [discriminate | congruence]).
Qed.

Lemma c_str_no_NUL (buf : string) : ~ Substring (String NUL "") (c_str buf).
Proof.
  induction buf as [|c buf IH]; simpl.
  - intros ([|? ?] & post & E); discriminate.
  - destruct (Ascii.eqb_spec c NUL) as [->|ne].
    + intros ([|? ?] & post & E); discriminate.
    + intros ([|d pre] & post & E); simpl in E; injection E as -> E.
      * now apply ne.
      * apply IH; now exists pre, post.
Qed.

End CStringFacts.

(** ** Facts about aegis_lkm_stub.c *)

Section CoreFacts.
Import CString Core.
Local Open Scope kern_scope.

Ltac kern_unfold :=
  cbv [bind ret fault printk load_active load_tier store_active store_tier
       exec logged aegis_is_licensed aegis_get_tier license_state
       is_zero negb];
  cbn [aegis_license_active aegis_license_tier dmesg fst snd].

Ltac log_norm := rewrite <- ?app_assoc; cbn [app].

Lemma announced_features_app (l1 l2 : list kmsg) :
  announced_features (l1 ++ l2) =
  (announced_features l1 ++ announced_features l2)%list.
Proof. unfold announced_features; now rewrite filter_app, map_app. Qed.

Lemma announced_features_cons (m : kmsg) (l : list kmsg) :
  announced_features (m :: l) =
  (announced_features [m] ++ announced_features l)%list.
Proof. exact (announced_features_app [m] l). Qed.

Ltac features_norm :=
  repeat first
    [ rewrite announced_features_app
    | match goal with
      | |- context [announced_features (?m :: ?l)] =>
          lazymatch l with
          | nil => fail
          | _ => rewrite (announced_features_cons m l)
          end
      end ].

(** The validator stores one of its six literals. *)
Lemma validate_short (tok : string) (t0 : option string) (k : kernel) :
  (strlen tok < 10)%nat ->
  aegis_validate_token_stub (Some tok) t0 k =
  Some ((Failure EINVAL, t0),
        logged k [Printk KERN_INFO
                         "Aegis: Validating token (stub implementation)\n" [];
                  Printk KERN_ERR "Aegis: Invalid token format\n" []]).
Proof.
  intros Hlen; unfold aegis_validate_token_stub.
  apply Nat.ltb_lt in Hlen; rewrite Hlen.
  kern_unfold; now log_norm.
Qed.

Lemma validate_null (t0 : option string) (k : kernel) :
  aegis_validate_token_stub None t0 k =
  Some ((Failure EINVAL, t0),
        logged k [Printk KERN_INFO
                         "Aegis: Validating token (stub implementation)\n" [];
                  Printk KERN_ERR "Aegis: Invalid token format\n" []]).
Proof. unfold aegis_validate_token_stub; kern_unfold; now log_norm. Qed.

Lemma validate_long (tok : string) (t0 : option string) (k : kernel) :
  (10 <= strlen tok)%nat ->
  exists t,
    aegis_validate_token_stub (Some tok) t0 k =
    Some ((Success, Some t),
          logged k [Printk KERN_INFO
                           "Aegis: Validating token (stub implementation)\n" [];
                    Printk KERN_INFO
                           "Aegis: Token validation successful - Tier: %s\n"
                           [VStr t]])
    /\ resolves tier_keywords tok t.
Proof.
  intros Hlen; unfold aegis_validate_token_stub.
  apply Nat.ltb_ge in Hlen; rewrite Hlen.
  destruct (found (strstr tok "gamer")) eqn:G;
    [|destruct (found (strstr tok "ai")) eqn:A;
      [|destruct (found (strstr tok "server")) eqn:S;
        [|destruct (found (strstr tok "basic")) eqn:B;
          [|destruct (found (strstr tok "freemium")) eqn:F]]]];
    rewrite ?found_true_iff, ?found_false_iff in *;
    eexists; (split; [kern_unfold; now log_norm|]);
    unfold tier_keywords;
    repeat (first [ apply resolves_hit; assumption
                  | apply resolves_skip; [assumption|]
                  | apply resolves_none ]).
Qed.

Lemma resolves_stub_tier (tok t : string) :
  resolves tier_keywords tok t -> In t stub_tiers.
Proof.
  unfold tier_keywords, stub_tiers; intros H.
  repeat (inversion H as [?|? ? ? ?|? ? ? ? ? H']; subst;
          [simpl; tauto | clear H; rename H' into H]).
  inversion H; simpl; tauto.
Qed.

Lemma resolves_functional (kws : list string) (tok t t' : string) :
  resolves kws tok t -> resolves kws tok t' -> t = t'.
Proof.
  induction 1; inversion 1; subst; auto; contradiction.
Qed.

(** Activation always completes, stores [true] and the tier, and leaves a
    record of the tier in the log. *)
Lemma activate_runs (t : string) (k : kernel) :
  exists log,
    aegis_activate_features t k =
    Some (tt, {| aegis_license_active := true;
                 aegis_license_tier := t;
                 dmesg := dmesg k ++ activation_record t :: log |}).
Proof.
  unfold aegis_activate_features, activation_record.
  destruct (strcmp t "freemium" =? 0)%Z;
    [|destruct (strcmp t "basic" =? 0)%Z;
      [|destruct (strcmp t "gamer" =? 0)%Z;
        [|destruct (strcmp t "ai" =? 0)%Z;
          [|destruct (strcmp t "server" =? 0)%Z]]]];
    kern_unfold; eexists; log_norm; reflexivity.
Qed.

Lemma activate_unknown (k : kernel) :
  aegis_activate_features "unknown" k =
  Some (tt, {| aegis_license_active := true;
               aegis_license_tier := "unknown";
               dmesg := dmesg k ++ [activation_record "unknown"] |}).
Proof.
  unfold aegis_activate_features, activation_record.
  cbn [strcmp Ascii.eqb Bool.eqb nat_of_ascii]; simpl (_ =? _)%Z; cbv iota.
  kern_unfold; now log_norm.
Qed.

Lemma exit_runs (k : kernel) :
  exists log,
    aegis_lkm_exit k =
    Some (tt, {| aegis_license_active := false;
                 aegis_license_tier := aegis_license_tier k;
                 dmesg := dmesg k ++ log |})
    /\ announced_features log = [].
Proof.
  destruct k as [[|] t log0]; unfold aegis_lkm_exit; kern_unfold; eexists;
    (split; [log_norm; reflexivity | reflexivity]).
Qed.

Lemma host_cases (h : host) : load_fails h \/ exists data, load_gets h data.
Proof.
  unfold load_fails, load_gets.
  destruct h as [[|] [[|data]|]]; simpl; eauto 6.
Qed.

Lemma read_fails (h : host) (tb : option string) (k : kernel) :
  load_fails h ->
  exists e log,
    aegis_read_token_file h tb k = Some ((Failure e, tb), logged k log)
    /\ announced_features log = [].
Proof.
  unfold load_fails, aegis_read_token_file.
  destruct h as [[|] [[|data]|]]; simpl kmalloc_ok; simpl auth_token;
    intros [H|[H|H]]; try discriminate H; cbv [kernel_read]; kern_unfold;
    do 2 eexists; (split; [log_norm; reflexivity | reflexivity]).
Qed.

Lemma read_ok (h : host) (tb : option string) (k : kernel) (data : string) :
  load_gets h data ->
  exists log,
    aegis_read_token_file h tb k =
    Some ((Success, Some (token_of_file data)), logged k log)
    /\ announced_features log = [].
Proof.
  unfold load_gets, aegis_read_token_file, token_of_file.
  intros [-> ->]; cbv [kernel_read]; kern_unfold.
  eexists; (split; [log_norm; reflexivity | reflexivity]).
Qed.

(** [aegis_lkm_init] in its three outcomes.  It returns [0] in each. *)
Lemma init_unlicensed (h : host) (k : kernel) :
  load_fails h ->
  exists log,
    aegis_lkm_init h k =
    Some (Success, {| aegis_license_active := false;
                      aegis_license_tier := aegis_license_tier k;
                      dmesg := dmesg k ++ log |})
    /\ announced_features log = [].
Proof.
  intros Hf; unfold aegis_lkm_init; kern_unfold.
  match goal with
  | |- context [aegis_read_token_file h None ?K] =>
      destruct (read_fails h None K Hf) as (e & log & E & F); rewrite E
  end.
  kern_unfold; eexists; split; [log_norm; reflexivity|].
  features_norm; rewrite F; reflexivity.
Qed.

Lemma init_rejected (h : host) (k : kernel) (data : string) :
  load_gets h data -> (strlen (token_of_file data) < 10)%nat ->
  exists log,
    aegis_lkm_init h k =
    Some (Success, {| aegis_license_active := false;
                      aegis_license_tier := aegis_license_tier k;
                      dmesg := dmesg k ++ log |})
    /\ announced_features log = [].
Proof.
  intros Hg Hlen; unfold aegis_lkm_init; kern_unfold.
  match goal with
  | |- context [aegis_read_token_file h None ?K] =>
      destruct (read_ok h None K data Hg) as (log & E & F); rewrite E
  end.
  kern_unfold; rewrite validate_short by assumption.
  kern_unfold; eexists; split; [log_norm; reflexivity|].
  features_norm; rewrite F; reflexivity.
Qed.

Lemma init_accepted (h : host) (k : kernel) (data : string) :
  load_gets h data -> (10 <= strlen (token_of_file data))%nat ->
  exists t log,
    resolves tier_keywords (token_of_file data) t
    /\ aegis_lkm_init h k =
       Some (Success, {| aegis_license_active := true;
                         aegis_license_tier := t;
                         dmesg := dmesg k ++ log |})
    /\ In (activation_record t) log.
Proof.
  intros Hg Hlen; unfold aegis_lkm_init; kern_unfold.
  match goal with
  | |- context [aegis_read_token_file h None ?K] =>
      destruct (read_ok h None K data Hg) as (log & E & _); rewrite E
  end.
  kern_unfold.
  match goal with
  | |- context [aegis_validate_token_stub _ None ?K] =>
      destruct (validate_long (token_of_file data) None K Hlen)
        as (t & E' & R); rewrite E'
  end.
  kern_unfold.
  match goal with
  | |- context [aegis_activate_features t ?K] =>
      destruct (activate_runs t K) as (log' & E''); rewrite E''
  end.
  kern_unfold; exists t; eexists; split; [assumption|].
  split; [log_norm; reflexivity|].
  repeat (progress cbn [In] || rewrite in_app_iff); auto 20.
Qed.

Lemma never_activated_app (l1 l2 : list kmsg) :
  never_activated (l1 ++ l2)%list <->
  never_activated l1 /\ never_activated l2.
Proof.
  unfold never_activated; split.
  - intros H; split; intros t Hin; apply (H t), in_or_app; tauto.
  - intros [H1 H2] t Hin; apply in_app_or in Hin as [Hin|Hin];
      [exact (H1 t Hin) | exact (H2 t Hin)].
Qed.

Ltac no_activation :=
  let t := fresh "t" in
  let Hin := fresh "Hin" in
  intros t Hin; unfold activation_record in Hin; cbn [In] in Hin;
  repeat (destruct Hin as [Hin|Hin]; [discriminate Hin|]); exact Hin.

(** Unloading records no activation. *)
Lemma exit_records_no_activation (k : kernel) :
  exists log,
    aegis_lkm_exit k =
    Some (tt, {| aegis_license_active := false;
                 aegis_license_tier := aegis_license_tier k;
                 dmesg := dmesg k ++ log |})
    /\ never_activated log.
Proof.
  destruct k as [[|] t log0]; unfold aegis_lkm_exit; kern_unfold; eexists;
    (split; [log_norm; reflexivity | no_activation]).
Qed.

(** One run of [aegis_lkm_init] either keeps the tier and records no
    activation, or stores a tier of the validator and records its
    activation. *)
Lemma init_records_activation (h : host) (k : kernel) :
  exists r k' log,
    aegis_lkm_init h k = Some (r, k')
    /\ dmesg k' = (dmesg k ++ log)%list
    /\ ((aegis_license_tier k' = aegis_license_tier k
         /\ never_activated log)
        \/ (In (aegis_license_tier k') stub_tiers
            /\ In (activation_record (aegis_license_tier k')) log)).
Proof.
  destruct h as [[|] [[|data]|]];
    unfold aegis_lkm_init, aegis_read_token_file;
    cbn [kmalloc_ok auth_token negb kernel_read].
  - kern_unfold; do 3 eexists; split; [reflexivity|].
    split; [log_norm; reflexivity|]; left; split; [reflexivity|no_activation].
  - generalize (c_str (substring 0 (AEGIS_TOKEN_MAX_SIZE - 1) data)).
    generalize (String.length (substring 0 (AEGIS_TOKEN_MAX_SIZE - 1) data)).
    intros n tok; unfold aegis_validate_token_stub; kern_unfold.
    destruct (strlen tok <? 10)%nat.
    + kern_unfold; do 3 eexists; split; [reflexivity|].
      split; [log_norm; reflexivity|]; left.
      split; [reflexivity|no_activation].
    + destruct (found (strstr tok "gamer"));
        [|destruct (found (strstr tok "ai"));
          [|destruct (found (strstr tok "server"));
            [|destruct (found (strstr tok "basic"));
              [|destruct (found (strstr tok "freemium"))]]]];
        unfold aegis_activate_features; kern_unfold;
        cbn [strcmp Ascii.eqb Bool.eqb nat_of_ascii]; simpl (_ =? _)%Z;
        cbv iota; kern_unfold;
        do 3 eexists; (split; [reflexivity|]);
        (split; [log_norm; reflexivity|]); right;
        (split; [cbn; auto 10
                | unfold activation_record; cbn [In]; auto 20]).
  - kern_unfold; do 3 eexists; split; [reflexivity|].
    split; [log_norm; reflexivity|]; left; split; [reflexivity|no_activation].
  - kern_unfold; do 3 eexists; split; [reflexivity|].
    split; [log_norm; reflexivity|]; left; split; [reflexivity|no_activation].
  - kern_unfold; do 3 eexists; split; [reflexivity|].
    split; [log_norm; reflexivity|]; left; split; [reflexivity|no_activation].
  - kern_unfold; do 3 eexists; split; [reflexivity|].
    split; [log_norm; reflexivity|]; left; split; [reflexivity|no_activation].
Qed.

Lemma stub_tier_not_none (t : string) : In t stub_tiers -> t <> "none".
Proof.
  intros Hin ->; unfold stub_tiers, tier_keywords in Hin; simpl in Hin.
  repeat (destruct Hin as [Hin|Hin]; [discriminate Hin|]); contradiction.
Qed.

(** In every reachable state the tier is still ["none"] with no activation
    on record, or it is a tier of the validator whose activation is on
    record. *)
Lemma reachable_tier_history (k : kernel) :
  reachable k ->
  (aegis_license_tier k = "none" /\ never_activated (dmesg k))
  \/ (In (aegis_license_tier k) stub_tiers
      /\ In (activation_record (aegis_license_tier k)) (dmesg k)).
Proof.
  induction 1 as [|k k' _ IH Hstep].
  - left; split; [reflexivity | intros t []].
  - destruct Hstep as [h k r k' E | t k k' Ht E | k k' E].
    + destruct (init_records_activation h k)
        as (r' & k1 & log & E' & Hlog & Hcase).
      rewrite E' in E; injection E as _ <-; rewrite Hlog.
      destruct Hcase as [[Htier Hnone] | [Hin Hrec]].
      * rewrite Htier; destruct IH as [[Hn Hna] | [Hin Hrec]].
        -- left; split; [exact Hn|]; now apply never_activated_app.
        -- right; split; [exact Hin|]; apply in_or_app; now left.
      * right; split; [exact Hin|]; apply in_or_app; now right.
    + unfold exec in E; destruct (activate_runs t k) as (log & E').
      rewrite E' in E; injection E as <-; cbn [aegis_license_tier dmesg].
      right; split; [exact Ht|]; apply in_or_app; right; now left.
    + unfold exec in E; destruct (exit_records_no_activation k)
        as (log & E' & Hna').
      rewrite E' in E; injection E as <-; cbn [aegis_license_tier dmesg].
      destruct IH as [[Hn Hna] | [Hin Hrec]].
      * left; split; [exact Hn|]; now apply never_activated_app.
      * right; split; [exact Hin|]; apply in_or_app; now left.
Qed.

End CoreFacts.

(** ** The license state machine of aegis_lkm_stub.c *)

Section CoreClaims.
Import CString Core.
Local Open Scope kern_scope.

(** The validator never faults: [NULL], short and long tokens all get a
    status. *)
Lemma validate_total (tok t0 : option string) (k : kernel) :
  exists r t k', aegis_validate_token_stub tok t0 k = Some ((r, t), k').
Proof.
  destruct tok as [tok|].
  - destruct (Nat.lt_ge_cases (strlen tok) 10) as [Hs|Hl].
    + rewrite validate_short by assumption; eauto.
    + destruct (validate_long tok t0 k Hl) as (t & -> & _); eauto.
  - rewrite validate_null; eauto.
Qed.

Lemma step_keeps_tier_activated (k k' : kernel) :
  step k k' -> tier_activated k'.
Proof.
  intros [h k0 r k1 E | t k0 k1 Ht E | k0 k1 E]; unfold tier_activated.
  - destruct (host_cases h) as [Hf | [data Hg]].
    + destruct (init_unlicensed h k0 Hf) as (log & E' & _).
      rewrite E' in E; injection E as <- <-; discriminate.
    + destruct (Nat.lt_ge_cases (strlen (token_of_file data)) 10) as [Hs|Hl].
      * destruct (init_rejected h k0 data Hg Hs) as (log & E' & _).
        rewrite E' in E; injection E as <- <-; discriminate.
      * destruct (init_accepted h k0 data Hg Hl) as (t & log & R & E' & Hin).
        rewrite E' in E; injection E as <- <-; intros _; simpl; split.
        -- eapply resolves_stub_tier; eassumption.
        -- apply in_or_app; now right.
  - unfold exec in E; destruct (activate_runs t k0) as (log & E').
    rewrite E' in E; injection E as <-; intros _; simpl; split; [assumption|].
    apply in_or_app; right; now left.
  - unfold exec in E; destruct (exit_runs k0) as (log & E' & _).
    rewrite E' in E; injection E as <-; discriminate.
Qed.

Lemma reachable_tier_activated (k : kernel) :
  reachable k -> tier_activated k.
Proof.
  intros [|k0 k1 _ Hstep].
  - unfold tier_activated; discriminate.
  - eapply step_keeps_tier_activated; eassumption.
Qed.

(** C1, as the specification words it, fails: a token that is a single
    segment with no signature is accepted by the stub validator, and the
    pipeline run on it leaves the module licensed. *)
Lemma unsigned_one_segment_token_accepted :
  three_segments "not-a-signed-jwt" = false
  /\ option_map fst
       (aegis_validate_token_stub (Some "not-a-signed-jwt") None module_loaded)
     = Some (Success, Some "unknown")
  /\ option_map aegis_is_licensed
       (exec (aegis_lkm_init
                {| kmalloc_ok := true;
                   auth_token := Some (Regular "not-a-signed-jwt") |})
             module_loaded)
     = Some true.
Proof. repeat split; vm_compute; reflexivity. Qed.

(** C1 (amended): the tokens the stub validator rejects are the short ones.
    For every token file whose C string is shorter than 10 characters,
    [aegis_validate_token_stub] returns [-EINVAL] and leaves [*tier] alone, and
    the load-validate-activate pipeline of [aegis_lkm_init] completes with
    [aegis_is_licensed() == false]. *)
Theorem short_token_rejected_and_inactive
        (h : host) (data : string) (t0 : option string) (k : kernel) :
  load_gets h data ->
  (strlen (token_of_file data) < 10)%nat ->
  (exists k1,
      aegis_validate_token_stub (Some (token_of_file data)) t0 k =
      Some ((Failure EINVAL, t0), k1))
  /\ (exists k',
         aegis_lkm_init h k = Some (Success, k')
         /\ aegis_is_licensed k' = false).
Proof.
  intros Hg Hs; split.
  - rewrite validate_short by assumption; eauto.
  - destruct (init_rejected h k data Hg Hs) as (log & -> & _).
    eexists; split; reflexivity.
Qed.

Lemma short_token_rejected_and_inactive_witness :
  load_gets {| kmalloc_ok := true; auth_token := Some (Regular "a.b.c") |}
            "a.b.c"
  /\ (strlen (token_of_file "a.b.c") < 10)%nat
  /\ (exists k1,
         aegis_validate_token_stub (Some (token_of_file "a.b.c")) None
                                   module_loaded =
         Some ((Failure EINVAL, None), k1))
  /\ (exists k',
         aegis_lkm_init
           {| kmalloc_ok := true; auth_token := Some (Regular "a.b.c") |}
           module_loaded = Some (Success, k')
         /\ aegis_is_licensed k' = false).
Proof.
  assert (Hg : load_gets
                 {| kmalloc_ok := true; auth_token := Some (Regular "a.b.c") |}
                 "a.b.c") by (split; reflexivity).
  assert (Hs : (strlen (token_of_file "a.b.c") < 10)%nat)
    by (vm_compute; lia).
  split; [exact Hg|]; split; [exact Hs|].
  exact (short_token_rejected_and_inactive _ _ None module_loaded Hg Hs).
Defined.

(** C2, as the specification words it, fails: a token with no tier keyword is
    given the tier ["unknown"], and the pipeline then reports the module as
    licensed with that tier. *)
Lemma unknown_tier_is_licensed :
  option_map fst
    (aegis_validate_token_stub (Some "0123456789") None module_loaded)
  = Some (Success, Some "unknown")
  /\ option_map license_state
       (exec (aegis_lkm_init
                {| kmalloc_ok := true;
                   auth_token := Some (Regular "0123456789") |})
             module_loaded)
     = Some (true, "unknown").
Proof. split; vm_compute; reflexivity. Qed.

(** C2 (amended): for every token of at least 10 characters in which none of
    the five tier keywords occurs, the validator succeeds with the tier
    ["unknown"]; activating ["unknown"] announces no feature, and it does set
    the module licensed with the tier ["unknown"]. *)
Theorem unknown_tier_no_features_but_active
        (tok : string) (t0 : option string) (k : kernel) :
  (10 <= strlen tok)%nat ->
  (forall kw, In kw tier_keywords -> ~ Substring kw tok) ->
  (exists k1,
      aegis_validate_token_stub (Some tok) t0 k =
      Some ((Success, Some "unknown"), k1))
  /\ (exists k',
         aegis_activate_features "unknown" k = Some (tt, k')
         /\ announced_features (dmesg k') = announced_features (dmesg k)
         /\ license_state k' = (true, "unknown")).
Proof.
  intros Hl Hnone; split.
  - destruct (validate_long tok t0 k Hl) as (t & -> & R).
    assert (t = "unknown") as ->; [|eauto].
    unfold tier_keywords in *.
    repeat (inversion R as [?|? ? ? Hin|? ? ? ? ? R']; subst;
            [exfalso; refine (Hnone _ _ Hin); simpl; tauto
            | clear R; rename R' into R]).
    now inversion R.
  - rewrite activate_unknown; eexists; split; [reflexivity|].
    split; [|reflexivity].
    cbn [dmesg]; rewrite announced_features_app.
    change (announced_features [activation_record "unknown"]) with (@nil string).
    now rewrite app_nil_r.
Qed.

Lemma no_keyword_in_digits (kw : string) :
  In kw tier_keywords -> ~ Substring kw "0123456789".
Proof.
  intros Hin; apply found_false_iff.
  unfold tier_keywords in Hin; simpl in Hin.
  repeat (destruct Hin as [<-|Hin]; [vm_compute; reflexivity|]).
  contradiction.
Qed.

Lemma unknown_tier_no_features_but_active_witness :
  (10 <= strlen "0123456789")%nat
  /\ (exists k1,
         aegis_validate_token_stub (Some "0123456789") None module_loaded =
         Some ((Success, Some "unknown"), k1))
  /\ (exists k',
         aegis_activate_features "unknown" module_loaded = Some (tt, k')
         /\ announced_features (dmesg k') = announced_features (dmesg module_loaded)
         /\ license_state k' = (true, "unknown")).
Proof.
  assert (Hl : (10 <= strlen "0123456789")%nat) by (vm_compute; lia).
  split; [exact Hl|].
  exact (unknown_tier_no_features_but_active
           "0123456789" None module_loaded Hl no_keyword_in_digits).
Defined.

(** C3, as the specification words it, fails: after a gamer token was
    activated, unloading leaves [aegis_get_tier()] at ["gamer"], not at the
    unlicensed value ["none"]. *)
Lemma tier_survives_unload :
  option_map license_state
    (exec (aegis_lkm_init
             {| kmalloc_ok := true;
                auth_token := Some (Regular "gamer-license-token") |} ;;
           aegis_lkm_exit)
          module_loaded)
  = Some (false, "gamer")
  /\ aegis_get_tier module_loaded = "none".
Proof. split; vm_compute; reflexivity. Qed.

(** C3 (amended): [aegis_lkm_exit] always completes; afterwards
    [aegis_is_licensed()] is [false], whichever tier was active, and
    [aegis_get_tier()] returns what it returned before the unload.  In every
    state reachable from the loaded module that value is the unlicensed
    ["none"] exactly when no tier was ever activated. *)
Theorem exit_clears_active_keeps_tier (k : kernel) :
  exists k',
    exec aegis_lkm_exit k = Some k'
    /\ aegis_is_licensed k' = false
    /\ aegis_get_tier k' = aegis_get_tier k
    /\ (reachable k ->
        (aegis_get_tier k' = "none" <->
         forall t, ~ In (activation_record t) (dmesg k))).
Proof.
  unfold exec; destruct (exit_runs k) as (log & -> & _).
  eexists; split; [reflexivity|]; split; [reflexivity|].
  split; [reflexivity|]; unfold aegis_get_tier; cbn [aegis_license_tier].
  intros Hreach.
  destruct (reachable_tier_history k Hreach) as [[Hn Hna] | [Hin Hrec]].
  - split; [intros _; exact Hna | intros _; exact Hn].
  - split.
    + intros Hn; exfalso; exact (stub_tier_not_none _ Hin Hn).
    + intros Hna; exfalso; exact (Hna _ Hrec).
Qed.

Lemma exit_clears_active_keeps_tier_witness :
  reachable module_loaded
  /\ exists k',
      exec aegis_lkm_exit module_loaded = Some k'
      /\ aegis_is_licensed k' = false
      /\ aegis_get_tier k' = aegis_get_tier module_loaded
      /\ (reachable module_loaded ->
          (aegis_get_tier k' = "none" <->
           forall t, ~ In (activation_record t) (dmesg module_loaded))).
Proof.
  split; [apply reachable_load|].
  exact (exit_clears_active_keeps_tier module_loaded).
Defined.

(** C4: when the token file is absent, [aegis_lkm_init] run on the freshly
    loaded module returns [0] and leaves the fail-closed default:
    [aegis_is_licensed() == false], [aegis_get_tier()] is the unlicensed value
    ["none"], and no feature has been announced. *)
Theorem absent_token_file_fail_closed (h : host) :
  auth_token h = None ->
  exists k',
    aegis_lkm_init h module_loaded = Some (Success, k')
    /\ aegis_is_licensed k' = false
    /\ aegis_get_tier k' = "none"
    /\ announced_features (dmesg k') = [].
Proof.
  intros Habsent.
  destruct (init_unlicensed h module_loaded) as (log & -> & F).
  - right; now left.
  - eexists; repeat split; cbn [dmesg module_loaded app]; exact F.
Qed.

Lemma absent_token_file_fail_closed_witness :
  auth_token {| kmalloc_ok := true; auth_token := None |} = None
  /\ exists k',
      aegis_lkm_init {| kmalloc_ok := true; auth_token := None |}
                     module_loaded = Some (Success, k')
      /\ aegis_is_licensed k' = false
      /\ aegis_get_tier k' = "none"
      /\ announced_features (dmesg k') = [].
Proof.
  split; [reflexivity|].
  exact (absent_token_file_fail_closed
           {| kmalloc_ok := true; auth_token := None |} eq_refl).
Defined.

(** C5, as the specification words it, fails: a token of four segments is
    accepted by the stub validator. *)
Lemma four_segment_token_accepted :
  List.length (jwt_segments "aaaa.bbbb.cccc.dddd") = 4%nat
  /\ three_segments "aaaa.bbbb.cccc.dddd" = false
  /\ option_map fst
       (aegis_validate_token_stub (Some "aaaa.bbbb.cccc.dddd") None
                                  module_loaded)
     = Some (Success, Some "unknown").
Proof. repeat split; vm_compute; reflexivity. Qed.

(** C5 (amended): [aegis_validate_token_stub] does not split the token.  It
    always returns, with [0] or [-EINVAL], and it returns [-EINVAL] exactly
    when the token is [NULL] or shorter than 10 characters, however many
    segments it has. *)
Theorem validate_rejects_exactly_short_tokens
        (tok t0 : option string) (k : kernel) :
  exists r t k',
    aegis_validate_token_stub tok t0 k = Some ((r, t), k')
    /\ (r = Success \/ r = Failure EINVAL)
    /\ (r = Failure EINVAL <->
        tok = None \/ exists s, tok = Some s /\ (strlen s < 10)%nat).
Proof.
  destruct tok as [tok|].
  - destruct (Nat.lt_ge_cases (strlen tok) 10) as [Hs|Hl].
    + rewrite validate_short by assumption.
      do 3 eexists; split; [reflexivity|]; split; [now right|].
      split; [|reflexivity]; intros _; right; eauto.
    + destruct (validate_long tok t0 k Hl) as (t & -> & _).
      do 3 eexists; split; [reflexivity|]; split; [now left|].
      split; [discriminate|].
      intros [E | (s & E & Hs)]; [discriminate E|].
      injection E as <-; lia.
  - rewrite validate_null.
    do 3 eexists; split; [reflexivity|]; split; [now right|].
    split; [now left | reflexivity].
Qed.

(** C6: in every state reached from the freshly loaded module by any sequence
    of initialisations, activations and unloads, [aegis_is_licensed() == true]
    is never paired with the unlicensed tier ["none"]: the tier reported by
    [aegis_get_tier()] is one of the tiers the validator produces, and the log
    holds the record of the activation that stored it. *)
Theorem licensed_implies_activated_tier (k : kernel) :
  reachable k ->
  aegis_is_licensed k = true ->
  aegis_get_tier k <> "none"
  /\ In (aegis_get_tier k) stub_tiers
  /\ In (activation_record (aegis_get_tier k)) (dmesg k).
Proof.
  intros Hreach Hactive.
  destruct (reachable_tier_activated k Hreach Hactive) as [Htier Hlog].
  unfold aegis_get_tier; repeat split; try assumption.
  intros Enone; rewrite Enone in Htier.
  unfold stub_tiers, tier_keywords in Htier; simpl in Htier.
  repeat (destruct Htier as [Htier|Htier]; [discriminate Htier|]).
  contradiction.
Qed.

Lemma licensed_implies_activated_tier_witness :
  exists k,
    exec (aegis_lkm_init
            {| kmalloc_ok := true;
               auth_token := Some (Regular "gamer-license-token") |})
         module_loaded = Some k
    /\ reachable k
    /\ aegis_is_licensed k = true
    /\ aegis_get_tier k <> "none"
    /\ In (aegis_get_tier k) stub_tiers
    /\ In (activation_record (aegis_get_tier k)) (dmesg k).
Proof.
  eexists; split; [vm_compute; reflexivity|].
  match goal with
  | |- reachable ?k /\ _ =>
      assert (Hreach : reachable k);
      [ eapply reachable_step; [apply reachable_load|];
        eapply step_init
          with (h := {| kmalloc_ok := true;
                        auth_token := Some (Regular "gamer-license-token") |});
        vm_compute; reflexivity
      | split; [exact Hreach|]; split; [reflexivity|];
        exact (licensed_implies_activated_tier k Hreach eq_refl) ]
  end.
Defined.

(** C8: activation is idempotent on the license state.  For every tier,
    activating it twice in a row completes and leaves [aegis_is_licensed()]
    and [aegis_get_tier()] exactly as activating it once does: [true] and that
    tier. *)
Theorem activate_twice_same_license_state (t : string) (k : kernel) :
  exists k1 k2,
    exec (aegis_activate_features t) k = Some k1
    /\ exec (aegis_activate_features t ;; aegis_activate_features t) k = Some k2
    /\ license_state k2 = license_state k1
    /\ license_state k1 = (true, t).
Proof.
  unfold exec, bind.
  destruct (activate_runs t k) as (log1 & ->).
  match goal with
  | |- context [aegis_activate_features t ?K] =>
      destruct (activate_runs t K) as (log2 & ->)
  end.
  do 2 eexists; repeat split.
Qed.

(** C10: for every token of at least 10 characters the stub validator returns
    [0], and the tier it stores is fixed by first-match substring precedence in
    the order gamer, ai, server, basic, freemium, with ["unknown"] when none
    occurs.  In particular a token in which ["ai"] occurs, be it next to
    ["server"] or inside another word, resolves to ["ai"] unless ["gamer"]
    occurs too. *)
Theorem validate_first_match_precedence
        (tok : string) (t0 : option string) (k : kernel) :
  (10 <= strlen tok)%nat ->
  exists t k',
    aegis_validate_token_stub (Some tok) t0 k = Some ((Success, Some t), k')
    /\ resolves ["gamer"; "ai"; "server"; "basic"; "freemium"] tok t
    /\ (Substring "gamer" tok -> t = "gamer")
    /\ (~ Substring "gamer" tok -> Substring "ai" tok -> t = "ai").
Proof.
  intros Hl; destruct (validate_long tok t0 k Hl) as (t & -> & R).
  exists t; eexists; split; [reflexivity|]; split; [exact R|].
  unfold tier_keywords in R; split.
  - intros Hg; inversion R; subst; [reflexivity | contradiction].
  - intros Hng Ha; inversion R as [|? ? ? Hg|? ? ? ? _ R']; subst;
      [contradiction|].
    inversion R'; subst; [reflexivity | contradiction].
Qed.

Lemma validate_first_match_precedence_witness :
  (10 <= strlen "maintain-server-01")%nat
  /\ exists t k',
      aegis_validate_token_stub (Some "maintain-server-01") None module_loaded
      = Some ((Success, Some t), k')
      /\ resolves ["gamer"; "ai"; "server"; "basic"; "freemium"]
                  "maintain-server-01" t
      /\ (Substring "gamer" "maintain-server-01" -> t = "gamer")
      /\ (~ Substring "gamer" "maintain-server-01" ->
          Substring "ai" "maintain-server-01" -> t = "ai").
Proof.
  assert (Hl : (10 <= strlen "maintain-server-01")%nat) by (vm_compute; lia).
  split; [exact Hl|].
  exact (validate_first_match_precedence "maintain-server-01" None
                                         module_loaded Hl).
Defined.

(** The two situations C10 names, evaluated: ["ai"] next to ["server"], and
    ["ai"] inside the word "maintain" of a server token. *)
Example ai_beats_server :
  option_map fst
    (aegis_validate_token_stub (Some "server-ai-license") None module_loaded)
  = Some (Success, Some "ai").
Proof. vm_compute; reflexivity. Qed.

Example ai_inside_maintain :
  option_map fst
    (aegis_validate_token_stub (Some "maintain-server-01") None module_loaded)
  = Some (Success, Some "ai").
Proof. vm_compute; reflexivity. Qed.

End CoreClaims.

(** ** The sysfs attributes of aegis_lkm.c *)

Section FreemiumClaims.
Import CString Freemium.


Lemma array_read_total (a : list string) (i : Z) :
  (0 <= i < Z.of_nat (List.length a))%Z -> exists s, array_read a i = Some s.
Proof.
  intros Hi; unfold array_read.
  replace (i <? 0)%Z with false by lia.
  replace (Z.of_nat (List.length a) <=? i)%Z with false by lia.
  simpl; destruct (nth_error a (Z.to_nat i)) as [s|] eqn:E; [now exists s|].
  apply nth_error_None in E; lia.
Qed.

Lemma NoDup_app_disjoint {A} (l1 l2 : list A) (x : A) :
  NoDup (l1 ++ l2) -> In x l1 -> In x l2 -> False.
Proof.
  induction l1 as [|a l1 IH]; simpl; [tauto|].
  intros Hnd [->|Hin] H2; inversion Hnd as [|? ? Hnotin Hnd']; subst.
  - apply Hnotin, in_or_app; now right.
  - now apply IH.
Qed.

(** X24: whatever tier code the module holds, the identifiers listed by the
    [features] attribute and those listed by [disabled_features] have no
    element in common, and neither list names an identifier twice. *)
Theorem features_and_disabled_are_disjoint (m : sysfs_module) :
  (forall f, ~ (In f (featuresFor m) /\ In f (disabledFeaturesFor m)))
  /\ NoDup (featuresFor m ++ disabledFeaturesFor m)
  /\ List.length (featuresFor m) = 5%nat
  /\ List.length (disabledFeaturesFor m) = 6%nat.
Proof.
  assert (En : featuresFor m =
               ["basic_monitoring"; "gaming_optimization"; "community_support";
                "proton_wine"; "system_utilities"]) by reflexivity.
  assert (Ed : disabledFeaturesFor m =
               ["priority_updates"; "ai_optimization"; "professional_support";
                "advanced_monitoring"; "kernel_enhancements";
                "enterprise_features"]) by reflexivity.
  assert (Hnd : NoDup (featuresFor m ++ disabledFeaturesFor m)).
  { rewrite En, Ed.
    match goal with
    | |- NoDup ?l =>
        assert (E : nodup string_dec l = l) by (vm_compute; reflexivity);
        rewrite <- E; apply NoDup_nodup
    end. }
  split; [|split; [exact Hnd | rewrite En, Ed; split; reflexivity]].
  intros f [Hen Hdis]; exact (NoDup_app_disjoint _ _ f Hnd Hen Hdis).
Qed.


(** The six names, one per code. *)
Example status_show_each_tier :
  map (fun t => option_map snd (status_show {| license_tier := t |}))
      [0; 1; 2; 3; 4; 5; 6; -1]%Z
  = map (fun s => Some (s ++ LF))
        ["unlicensed"; "professional"; "freemium"; "gamer"; "ai_developer";
         "server"; "unknown"; "unknown"].
Proof. vm_compute; reflexivity. Qed.

End FreemiumClaims.

(** ** aegis_lkm_stub.c: initialisation as a whole *)

Section CoreInit.
Import CString Core.
Local Open Scope kern_scope.

Ltac kern_run :=
  cbv [bind ret fault printk load_active load_tier store_active store_tier
       exec logged aegis_is_licensed aegis_get_tier license_state
       is_zero negb];
  cbn [aegis_license_active aegis_license_tier dmesg fst snd].

Ltac strcmp_run :=
  cbn [strcmp Ascii.eqb Bool.eqb nat_of_ascii]; simpl (_ =? _)%Z; cbv iota.

Ltac log_norm := rewrite <- ?app_assoc; cbn [app].

Ltac benign_log :=
  repeat first [apply Forall_nil | apply Forall_cons];
  unfold benign_msg; cbn [varargs];
  repeat first [apply Forall_nil | apply Forall_cons];
  cbn [benign_arg stub_tiers tier_keywords app In]; auto 12.

Lemma load_gets_functional (h : host) (d1 d2 : string) :
  load_gets h d1 -> load_gets h d2 -> d1 = d2.
Proof. intros [_ E1] [_ E2]; congruence. Qed.

(** Everything the later statements need to know of one run of
    [aegis_lkm_init]. *)
Lemma init_spec (h : host) (k : kernel) :
  exists k' log,
    aegis_lkm_init h k = Some (Success, k')
    /\ dmesg k' = (dmesg k ++ log)%list
    /\ Forall benign_msg log
    /\ ((~ accepts h
         /\ license_state k' = (false, aegis_get_tier k)
         /\ announced_features log = [])
        \/ (exists data t,
               load_gets h data
               /\ (10 <= strlen (token_of_file data))%nat
               /\ resolves tier_keywords (token_of_file data) t
               /\ license_state k' = (true, t)
               /\ announced_features log = features_announced_by t)).
Proof.
  destruct h as [[|] [[|data]|]];
    unfold aegis_lkm_init, aegis_read_token_file;
    cbn [kmalloc_ok auth_token negb kernel_read].
  - (* the file cannot be read *)
    kern_run; do 2 eexists; split; [reflexivity|].
    split; [log_norm; reflexivity|]; split; [benign_log|]; left.
    split; [|split; reflexivity].
    intros (d & [_ E] & _); discriminate E.
  - (* the file is read *)
    change (c_str (substring 0 (AEGIS_TOKEN_MAX_SIZE - 1) data))
      with (token_of_file data).
    generalize (String.length (substring 0 (AEGIS_TOKEN_MAX_SIZE - 1) data)).
    intros n; unfold aegis_validate_token_stub; kern_run.
    destruct (strlen (token_of_file data) <? 10)%nat eqn:Hlen.
    + apply Nat.ltb_lt in Hlen.
      kern_run; do 2 eexists; split; [reflexivity|].
      split; [log_norm; reflexivity|]; split; [benign_log|]; left.
      split; [|split; reflexivity].
      intros (d & [_ E] & Hl); injection E as <-; lia.
    + apply Nat.ltb_ge in Hlen.
      destruct (found (strstr (token_of_file data) "gamer")) eqn:G;
        [|destruct (found (strstr (token_of_file data) "ai")) eqn:A;
          [|destruct (found (strstr (token_of_file data) "server")) eqn:S;
            [|destruct (found (strstr (token_of_file data) "basic")) eqn:B;
              [|destruct (found (strstr (token_of_file data) "freemium"))
                         eqn:F]]]];
        rewrite ?found_true_iff, ?found_false_iff in *;
        unfold aegis_activate_features; kern_run; strcmp_run; kern_run;
        do 2 eexists; (split; [reflexivity|]);
        (split; [log_norm; reflexivity|]); (split; [benign_log|]); right;
        exists data; eexists; (split; [split; reflexivity|]);
        (split; [exact Hlen|]);
        (split; [|split; reflexivity]); unfold tier_keywords;
        repeat (first [ apply resolves_hit; assumption
                      | apply resolves_skip; [assumption|]
                      | apply resolves_none ]).
  - (* no file *)
    kern_run; do 2 eexists; split; [reflexivity|].
    split; [log_norm; reflexivity|]; split; [benign_log|]; left.
    split; [|split; reflexivity].
    intros (d & [_ E] & _); discriminate E.
  - (* no buffer *)
    kern_run; do 2 eexists; split; [reflexivity|].
    split; [log_norm; reflexivity|]; split; [benign_log|]; left.
    split; [|split; reflexivity].
    intros (d & [E _] & _); discriminate E.
  - kern_run; do 2 eexists; split; [reflexivity|].
    split; [log_norm; reflexivity|]; split; [benign_log|]; left.
    split; [|split; reflexivity].
    intros (d & [E _] & _); discriminate E.
  - kern_run; do 2 eexists; split; [reflexivity|].
    split; [log_norm; reflexivity|]; split; [benign_log|]; left.
    split; [|split; reflexivity].
    intros (d & [E _] & _); discriminate E.
Qed.

(** X1: [aegis_lkm_init] never faults and always returns [0], whatever the
    host offers and whatever the globals held; afterwards the module is
    licensed exactly when the buffer could be allocated, the token file could
    be read and its C string has at least 10 characters. *)
Theorem init_always_loads_licensed_iff_long_token (h : host) (k : kernel) :
  exists k',
    aegis_lkm_init h k = Some (Success, k')
    /\ (aegis_is_licensed k' = true <->
        exists data,
          kmalloc_ok h = true /\ auth_token h = Some (Regular data)
          /\ (10 <= strlen (token_of_file data))%nat).
Proof.
  destruct (init_spec h k) as (k' & log & E & _ & _ & Hcase).
  exists k'; split; [exact E|].
  destruct Hcase as [(Hno & Hst & _) | (data & t & Hg & Hl & _ & Hst & _)];
    unfold license_state in Hst; injection Hst as Hact _; rewrite Hact.
  - split; [discriminate|].
    intros (data & Hk & Hf & Hl); exfalso; apply Hno.
    exists data; repeat split; assumption.
  - split; [|reflexivity].
    intros _; destruct Hg as [Hk Hf]; exists data; repeat split; assumption.
Qed.

(** X2: when the token file can be read and its C string has at least 10
    characters, [aegis_lkm_init] publishes the licence as active with the tier
    that first-match precedence over gamer, ai, server, basic, freemium picks
    from that string, whatever the globals held before. *)
Theorem init_publishes_first_match_tier
        (h : host) (data : string) (k : kernel) :
  load_gets h data ->
  (10 <= strlen (token_of_file data))%nat ->
  exists k' t,
    aegis_lkm_init h k = Some (Success, k')
    /\ license_state k' = (true, t)
    /\ resolves tier_keywords (token_of_file data) t.
Proof.
  intros Hg Hl.
  destruct (init_spec h k) as (k' & log & E & _ & _ & Hcase).
  destruct Hcase as [(Hno & _) | (data' & t & Hg' & _ & R & Hst & _)].
  - exfalso; apply Hno; exists data; split; assumption.
  - rewrite (load_gets_functional h data data' Hg Hg').
    exists k', t; repeat split; assumption.
Qed.

Lemma init_publishes_first_match_tier_witness :
  load_gets {| kmalloc_ok := true;
               auth_token := Some (Regular "basic-server-gamer") |}
            "basic-server-gamer"
  /\ (10 <= strlen (token_of_file "basic-server-gamer"))%nat
  /\ exists k' t,
      aegis_lkm_init {| kmalloc_ok := true;
                        auth_token := Some (Regular "basic-server-gamer") |}
                     module_loaded = Some (Success, k')
      /\ license_state k' = (true, t)
      /\ resolves tier_keywords (token_of_file "basic-server-gamer") t.
Proof.
  assert (Hg : load_gets
                 {| kmalloc_ok := true;
                    auth_token := Some (Regular "basic-server-gamer") |}
                 "basic-server-gamer") by (split; reflexivity).
  assert (Hl : (10 <= strlen (token_of_file "basic-server-gamer"))%nat)
    by (vm_compute; lia).
  split; [exact Hg|]; split; [exact Hl|].
  exact (init_publishes_first_match_tier _ _ module_loaded Hg Hl).
Defined.

(** X3: an initialisation that finds no acceptable token (no buffer, no
    file, a read error, or fewer than 10 characters) clears the licence flag
    and leaves [aegis_get_tier()] at whatever it returned before, so a tier
    stored by an earlier activation stays visible. *)
Theorem init_without_token_keeps_old_tier (h : host) (k : kernel) :
  (forall data, load_gets h data -> (strlen (token_of_file data) < 10)%nat) ->
  exists k',
    aegis_lkm_init h k = Some (Success, k')
    /\ aegis_is_licensed k' = false
    /\ aegis_get_tier k' = aegis_get_tier k.
Proof.
  intros Hshort.
  destruct (init_spec h k) as (k' & log & E & _ & _ & Hcase).
  exists k'; split; [exact E|].
  destruct Hcase as [(_ & Hst & _) | (data & t & Hg & Hl & _)].
  - unfold license_state in Hst; injection Hst as Hact Htier.
    split; assumption.
  - specialize (Hshort data Hg); lia.
Qed.

Lemma init_without_token_keeps_old_tier_witness :
  (forall data,
      load_gets {| kmalloc_ok := true; auth_token := Some Unreadable |} data ->
      (strlen (token_of_file data) < 10)%nat)
  /\ exists k',
      aegis_lkm_init {| kmalloc_ok := true; auth_token := Some Unreadable |}
                     {| aegis_license_active := true;
                        aegis_license_tier := "gamer";
                        dmesg := [] |} = Some (Success, k')
      /\ aegis_is_licensed k' = false
      /\ aegis_get_tier k' = "gamer".
Proof.
  assert (Hs : forall data,
             load_gets {| kmalloc_ok := true; auth_token := Some Unreadable |}
                       data ->
             (strlen (token_of_file data) < 10)%nat)
    by (intros data [_ E]; discriminate E).
  split; [exact Hs|].
  exact (init_without_token_keeps_old_tier
           {| kmalloc_ok := true; auth_token := Some Unreadable |}
           {| aegis_license_active := true;
              aegis_license_tier := "gamer";
              dmesg := [] |} Hs).
Defined.

(** X4: [aegis_lkm_init] only appends to the kernel log, and no line it
    writes carries token bytes: every [printk] argument is a number, the path
    of the token file, one of the validator's six tier literals, or
    ACTIVE/INACTIVE. *)
Theorem init_log_carries_no_token_bytes (h : host) (k : kernel) :
  exists k' log,
    aegis_lkm_init h k = Some (Success, k')
    /\ dmesg k' = (dmesg k ++ log)%list
    /\ forall m a, In m log -> In a (varargs m) -> benign_arg a.
Proof.
  destruct (init_spec h k) as (k' & log & E & Hlog & Hb & _).
  exists k', log; repeat split; try assumption.
  intros m a Hm Ha.
  rewrite Forall_forall in Hb; specialize (Hb m Hm).
  unfold benign_msg in Hb; rewrite Forall_forall in Hb; exact (Hb a Ha).
Qed.

(** X5: the feature lines [aegis_lkm_init] adds to the log are exactly the
    bundle of the tier it published when it ends licensed, and none when it
    ends unlicensed. *)
Theorem init_announces_bundle_of_published_tier (h : host) (k : kernel) :
  exists k' log,
    aegis_lkm_init h k = Some (Success, k')
    /\ dmesg k' = (dmesg k ++ log)%list
    /\ announced_features log =
       if aegis_is_licensed k' then features_announced_by (aegis_get_tier k')
       else [].
Proof.
  destruct (init_spec h k) as (k' & log & E & Hlog & _ & Hcase).
  exists k', log; repeat split; try assumption.
  destruct Hcase as [(_ & Hst & F) | (data & t & _ & _ & _ & Hst & F)];
    unfold license_state in Hst; injection Hst as Hact Htier;
    rewrite Hact, ?Htier; exact F.
Qed.

(** X22: what [aegis_lkm_init] publishes depends on the host and on the tier
    stored before, not on the licence flag or the log it finds: run on two
    states that report the same tier, it leaves the same licence state.  So
    a load after a clean unload behaves as the same load without it. *)
Theorem init_ignores_previous_licence_flag (h : host) (k1 k2 : kernel) :
  aegis_get_tier k1 = aegis_get_tier k2 ->
  exists k1' k2',
    aegis_lkm_init h k1 = Some (Success, k1')
    /\ aegis_lkm_init h k2 = Some (Success, k2')
    /\ license_state k1' = license_state k2'.
Proof.
  intros Ht.
  destruct (init_spec h k1) as (k1' & log1 & E1 & _ & _ & C1).
  destruct (init_spec h k2) as (k2' & log2 & E2 & _ & _ & C2).
  exists k1', k2'; split; [exact E1|]; split; [exact E2|].
  destruct C1 as [(N1 & S1 & _) | (d1 & t1 & G1 & L1 & R1 & S1 & _)];
    destruct C2 as [(N2 & S2 & _) | (d2 & t2 & G2 & L2 & R2 & S2 & _)];
    rewrite S1, S2.
  - now rewrite Ht.
  - exfalso; apply N1; exists d2; split; assumption.
  - exfalso; apply N2; exists d1; split; assumption.
  - rewrite (load_gets_functional h d1 d2 G1 G2) in R1.
    now rewrite (resolves_functional _ _ _ _ R1 R2).
Qed.

Lemma init_ignores_previous_licence_flag_witness :
  aegis_get_tier {| aegis_license_active := true;
                    aegis_license_tier := "none";
                    dmesg := [] |}
  = aegis_get_tier module_loaded
  /\ exists k1' k2',
      aegis_lkm_init {| kmalloc_ok := true; auth_token := None |}
                     {| aegis_license_active := true;
                        aegis_license_tier := "none";
                        dmesg := [] |} = Some (Success, k1')
      /\ aegis_lkm_init {| kmalloc_ok := true; auth_token := None |}
                        module_loaded = Some (Success, k2')
      /\ license_state k1' = license_state k2'.
Proof.
  assert (Ht : aegis_get_tier {| aegis_license_active := true;
                                 aegis_license_tier := "none";
                                 dmesg := [] |}
               = aegis_get_tier module_loaded) by reflexivity.
  split; [exact Ht|].
  exact (init_ignores_previous_licence_flag
           {| kmalloc_ok := true; auth_token := None |} _ _ Ht).
Defined.

End CoreInit.

(** ** aegis_lkm_stub.c: the parts of the pipeline *)

Section CoreParts.
Import CString Core.
Local Open Scope kern_scope.

Ltac kern_run :=
  cbv [bind ret fault printk load_active load_tier store_active store_tier
       exec logged aegis_is_licensed aegis_get_tier license_state
       is_zero negb];
  cbn [aegis_license_active aegis_license_tier dmesg fst snd].

Lemma strcmp_eqb_true (a b : string) :
  (strcmp a b =? 0)%Z = true <-> a = b.
Proof. rewrite Z.eqb_eq; apply strcmp_zero_iff. Qed.

Lemma strcmp_eqb_false (a b : string) :
  (strcmp a b =? 0)%Z = false <-> a <> b.
Proof. rewrite Z.eqb_neq, strcmp_zero_iff; tauto. Qed.

(** The bundle of each tier, read off [aegis_activate_features]. *)
Lemma bundle_cases (t : string) :
  (t = "gamer"
   /\ features_announced_by t =
      ["Aegis:   - AI-powered frame optimization\n";
       "Aegis:   - P2P network tuning\n"; "Aegis:   - Low-latency mode\n"])
  \/ (t = "ai"
      /\ features_announced_by t =
         ["Aegis:   - Docker integration\n"; "Aegis:   - GPU acceleration\n";
          "Aegis:   - Container optimization\n"])
  \/ (t = "server"
      /\ features_announced_by t =
         ["Aegis:   - AI server acceleration\n";
          "Aegis:   - Multi-tenant isolation\n";
          "Aegis:   - High-performance networking\n"])
  \/ (t <> "gamer" /\ t <> "ai" /\ t <> "server"
      /\ features_announced_by t = []).
Proof.
  unfold features_announced_by, aegis_activate_features.
  destruct (strcmp t "freemium" =? 0)%Z eqn:F;
    [|destruct (strcmp t "basic" =? 0)%Z eqn:B;
      [|destruct (strcmp t "gamer" =? 0)%Z eqn:G;
        [|destruct (strcmp t "ai" =? 0)%Z eqn:A;
          [|destruct (strcmp t "server" =? 0)%Z eqn:S]]]];
    rewrite ?strcmp_eqb_true, ?strcmp_eqb_false in *; subst;
    kern_run; cbn [module_loaded dmesg].
  - right; right; right; repeat split; discriminate.
  - right; right; right; repeat split; discriminate.
  - left; split; reflexivity.
  - right; left; split; reflexivity.
  - right; right; left; split; reflexivity.
  - right; right; right; repeat split; assumption.
Qed.

(** X6: only the gamer, ai and server tiers announce features, three each;
    freemium, basic, unknown and every other string announce none. *)
Theorem only_premium_tiers_announce_features (t : string) :
  (features_announced_by t <> [] <->
   t = "gamer" \/ t = "ai" \/ t = "server")
  /\ (List.length (features_announced_by t) = 3%nat
      \/ features_announced_by t = []).
Proof.
  destruct (bundle_cases t)
    as [[-> E] | [[-> E] | [[-> E] | (Hg & Ha & Hs & E)]]]; rewrite E.
  - split; [split; [tauto | discriminate] | now left].
  - split; [split; [tauto | discriminate] | now left].
  - split; [split; [tauto | discriminate] | now left].
  - split; [|now right].
    split; [congruence | intros [?|[?|?]]; contradiction].
Qed.

(** X7: the bundles of two different tiers never share a feature. *)
Theorem tier_bundles_are_disjoint (t1 t2 f : string) :
  t1 <> t2 ->
  ~ (In f (features_announced_by t1) /\ In f (features_announced_by t2)).
Proof.
  intros Hne [H1 H2].
  destruct (bundle_cases t1)
    as [[-> E1] | [[-> E1] | [[-> E1] | (_ & _ & _ & E1)]]];
    rewrite E1 in H1;
    destruct (bundle_cases t2)
      as [[-> E2] | [[-> E2] | [[-> E2] | (_ & _ & _ & E2)]]];
    rewrite E2 in H2; try congruence; try contradiction;
    simpl in H1, H2;
    repeat (destruct H1 as [H1|H1]; [subst f|]); try contradiction;
    repeat (destruct H2 as [H2|H2]; [discriminate H2|]); contradiction.
Qed.

Lemma tier_bundles_are_disjoint_witness :
  "gamer" <> "server"
  /\ ~ (In "Aegis:   - P2P network tuning\n" (features_announced_by "gamer")
        /\ In "Aegis:   - P2P network tuning\n"
              (features_announced_by "server")).
Proof.
  assert (Hne : "gamer" <> "server") by discriminate.
  split; [exact Hne|].
  exact (tier_bundles_are_disjoint "gamer" "server" _ Hne).
Defined.

Lemma substring_initial (n : nat) (s : string) :
  (String.length (substring 0 n s) <= n)%nat
  /\ exists rest, s = substring 0 n s ++ rest.
Proof.
  revert s; induction n as [|n IH]; intros [|c s]; simpl.
  - split; [lia | now exists ""].
  - split; [lia | now exists (String c s)].
  - split; [lia | now exists ""].
  - destruct (IH s) as [Hlen [rest E]]; split; [lia|].
    exists rest; now rewrite <- E.
Qed.

Lemma c_str_initial (buf : string) :
  (String.length (c_str buf) <= String.length buf)%nat
  /\ exists rest, buf = c_str buf ++ rest.
Proof.
  induction buf as [|c buf [Hlen [rest E]]]; simpl.
  - split; [lia | now exists ""].
  - destruct (Ascii.eqb c NUL); simpl.
    + split; [lia | now exists (String c buf)].
    + split; [lia|]; exists rest; now rewrite <- E.
Qed.

Lemma append_assoc (a b c : string) : (a ++ b) ++ c = a ++ (b ++ c).
Proof. induction a as [|x a IH]; simpl; [reflexivity | now rewrite IH]. Qed.

(** X8: [aegis_read_token_file] always returns, never touches the licence
    globals, and its status names the cause: [-ENOMEM] exactly when the
    buffer cannot be allocated, [-ENOENT] exactly when the buffer is there
    and the file cannot be opened, [-EIO] exactly when the file opens and
    the read fails, [0] exactly when the file is read.  On every failure
    [*token_buffer] is left as it was. *)
Theorem read_token_file_status_names_cause
        (h : host) (tb : option string) (k : kernel) :
  exists r tok k',
    aegis_read_token_file h tb k = Some ((r, tok), k')
    /\ license_state k' = license_state k
    /\ (r = Failure ENOMEM <-> kmalloc_ok h = false)
    /\ (r = Failure ENOENT <-> kmalloc_ok h = true /\ auth_token h = None)
    /\ (r = Failure EIO <->
        kmalloc_ok h = true /\ auth_token h = Some Unreadable)
    /\ (r = Success <-> exists data, load_gets h data)
    /\ (r <> Success -> tok = tb).
Proof.
  unfold load_gets, aegis_read_token_file.
  destruct h as [[|] [[|data]|]];
    cbn [kmalloc_ok auth_token negb kernel_read]; kern_run;
    do 3 eexists; (split; [reflexivity|]); (split; [reflexivity|]);
    repeat split; try discriminate; try congruence;
    try (intros [? ?]; discriminate);
    try (intros (? & ? & ?); discriminate);
    try (intros (? & ? & ?); congruence).
  - intros _; now exists data.
Qed.

(** X9: when the loader succeeds on a file holding [data], the token it hands
    on is an initial segment of [data], has at most
    [AEGIS_TOKEN_MAX_SIZE - 1] = 2047 characters, so that it fits the buffer
    together with its terminator, and contains no NUL. *)
Theorem read_token_is_bounded_prefix
        (h : host) (data : string) (tb : option string) (k : kernel) :
  load_gets h data ->
  exists tok k',
    aegis_read_token_file h tb k = Some ((Success, Some tok), k')
    /\ (strlen tok <= 2047)%nat
    /\ (strlen tok < AEGIS_TOKEN_MAX_SIZE)%nat
    /\ (exists rest, data = tok ++ rest)
    /\ ~ Substring (String NUL "") tok.
Proof.
  intros Hg; destruct (read_ok h tb k data Hg) as (log & E & _).
  exists (token_of_file data); eexists; split; [exact E|].
  unfold token_of_file, strlen.
  destruct (substring_initial (AEGIS_TOKEN_MAX_SIZE - 1) data)
    as [Hlen [rest1 E1]].
  destruct (c_str_initial (substring 0 (AEGIS_TOKEN_MAX_SIZE - 1) data))
    as [Hlen' [rest2 E2]].
  change (AEGIS_TOKEN_MAX_SIZE - 1)%nat with 2047%nat in *.
  change AEGIS_TOKEN_MAX_SIZE with 2048%nat.
  repeat split; try lia.
  - exists (rest2 ++ rest1).
    rewrite <- append_assoc, <- E2; exact E1.
  - apply c_str_no_NUL.
Qed.

Lemma read_token_is_bounded_prefix_witness :
  load_gets {| kmalloc_ok := true;
               auth_token := Some (Regular "gamer-license-token") |}
            "gamer-license-token"
  /\ exists tok k',
      aegis_read_token_file
        {| kmalloc_ok := true;
           auth_token := Some (Regular "gamer-license-token") |}
        None module_loaded = Some ((Success, Some tok), k')
      /\ (strlen tok <= 2047)%nat
      /\ (strlen tok < AEGIS_TOKEN_MAX_SIZE)%nat
      /\ (exists rest, "gamer-license-token" = tok ++ rest)
      /\ ~ Substring (String NUL "") tok.
Proof.
  assert (Hg : load_gets
                 {| kmalloc_ok := true;
                    auth_token := Some (Regular "gamer-license-token") |}
                 "gamer-license-token") by (split; reflexivity).
  split; [exact Hg|].
  exact (read_token_is_bounded_prefix _ _ None module_loaded Hg).
Defined.

(** X10: [aegis_validate_token_stub] on its own grants nothing: it never
    touches the licence globals.  When it succeeds [*tier] is one of its six
    literals (never the unlicensed ["none"]); when it fails [*tier] is left
    as it was. *)
Theorem validate_grants_nothing_by_itself
        (tok t0 : option string) (k : kernel) :
  exists r t k',
    aegis_validate_token_stub tok t0 k = Some ((r, t), k')
    /\ license_state k' = license_state k
    /\ (r = Success -> exists s, t = Some s /\ In s stub_tiers /\ s <> "none")
    /\ (r <> Success -> t = t0).
Proof.
  assert (Hnone : forall s, In s stub_tiers -> s <> "none").
  { intros s Hin ->; unfold stub_tiers, tier_keywords in Hin; simpl in Hin.
    repeat (destruct Hin as [Hin|Hin]; [discriminate Hin|]); contradiction. }
  destruct tok as [tok|].
  - destruct (Nat.lt_ge_cases (strlen tok) 10) as [Hs|Hl].
    + rewrite validate_short by assumption.
      do 3 eexists; split; [reflexivity|]; split; [reflexivity|].
      split; [discriminate | reflexivity].
    + destruct (validate_long tok t0 k Hl) as (t & -> & R).
      apply resolves_stub_tier in R.
      do 3 eexists; split; [reflexivity|]; split; [reflexivity|].
      split; [intros _; exists t; auto | congruence].
  - rewrite validate_null.
    do 3 eexists; split; [reflexivity|]; split; [reflexivity|].
    split; [discriminate | reflexivity].
Qed.

End CoreParts.

(** ** aegis_lkm_stub.c: nothing is leaked *)

Section HeapFacts.
Import Core.

Ltac res_run :=
  cbv [Heap.aegis_lkm_init Heap.aegis_read_token_file Heap.bind Heap.ret
       Heap.kmalloc Heap.kfree Heap.filp_open Heap.filp_close kernel_read
       is_zero negb];
  cbn [Heap.live_buffers Heap.open_files kmalloc_ok auth_token].

(** X11: the loader releases what it acquires.  It returns the same status
    as the loader of the licence model; on success it holds exactly one more
    buffer, which [*token_buffer] now points to, and on every failure it
    holds what it held on entry; the file is closed on every path.  It never
    frees or closes what it does not hold. *)
Theorem read_token_file_balances_resources
        (h : host) (tb : bool) (r : Heap.resources)
        (tb' : option string) (k : kernel) :
  exists st tok r',
    Heap.aegis_read_token_file h tb r = Some ((st, tok), r')
    /\ option_map (fun x => fst (fst x)) (aegis_read_token_file h tb' k)
       = Some st
    /\ Heap.open_files r' = Heap.open_files r
    /\ (st = Success ->
        tok = true /\ Heap.live_buffers r' = S (Heap.live_buffers r))
    /\ (st <> Success ->
        tok = tb /\ Heap.live_buffers r' = Heap.live_buffers r).
Proof.
  destruct h as [[|] [[|data]|]], r as [b f]; res_run;
    do 3 eexists; (split; [reflexivity|]); (split; [reflexivity|]);
    (split; [reflexivity|]); split; intros H;
    try discriminate H; try (now contradiction H); split; reflexivity.
Qed.

(** X12: [aegis_lkm_init] leaks nothing and frees nothing twice: for every
    host it completes, returns [0], and leaves as many buffers allocated and
    files open as it found. *)
Theorem init_releases_buffer_and_file (h : host) (r : Heap.resources) :
  Heap.aegis_lkm_init h r = Some (Success, r).
Proof.
  destruct h as [[|] [[|data]|]], r as [b f]; res_run; reflexivity.
Qed.

End HeapFacts.

(** ** aegis_lkm.c: the attributes and the life of the module *)

Section FreemiumLife.
Import CString Freemium.

Lemma append_LF_cancel (a b : string) : a ++ LF = b ++ LF -> a = b.
Proof.
  revert b; induction a as [|x a IH]; intros [|y b]; simpl; intros E.
  - reflexivity.
  - injection E as _ E; destruct b; discriminate E.
  - injection E as _ E; destruct a; discriminate E.
  - injection E as -> E; f_equal; now apply IH.
Qed.

Lemma to_int_injective (x y : Z) : Z.to_int x = Z.to_int y -> x = y.
Proof.
  intros E; rewrite <- (DecimalZ.of_to x), <- (DecimalZ.of_to y); now rewrite E.
Qed.

(** X13: the [tier] attribute identifies the stored code: two values of
    [license_tier] that print the same text are equal. *)
Theorem tier_show_identifies_code (m1 m2 : sysfs_module) :
  tier_show m1 = tier_show m2 -> license_tier m1 = license_tier m2.
Proof.
  unfold tier_show, sprintf_int_line, sprintf_line; intros E.
  injection E as _ E; apply append_LF_cancel in E.
  apply to_int_injective.
  assert (H : Some (Z.to_int (license_tier m1))
              = Some (Z.to_int (license_tier m2)))
    by (rewrite <- !NilEmpty.isi, E; reflexivity).
  now injection H.
Qed.

Lemma tier_show_identifies_code_witness :
  tier_show {| license_tier := 2 |} = tier_show module_loaded
  /\ license_tier {| license_tier := 2 |} = license_tier module_loaded.
Proof.
  assert (E : tier_show {| license_tier := 2 |} = tier_show module_loaded)
    by reflexivity.
  split; [exact E|].
  exact (tier_show_identifies_code _ _ E).
Defined.

Lemma in_range_cases (t : Z) :
  (0 <= t <= 5)%Z ->
  t = 0%Z \/ t = 1%Z \/ t = 2%Z \/ t = 3%Z \/ t = 4%Z \/ t = 5%Z.
Proof. lia. Qed.

(** X14: the [status] attribute identifies every code from 0 to 5: if the
    stored code is in that range, any code that shows the same status text
    is the same code; in particular no enumerated tier reads as another one
    or as ["unknown"]. *)
Theorem status_show_identifies_enumerated_tier (m1 m2 : sysfs_module) :
  (0 <= license_tier m1 <= 5)%Z ->
  status_show m1 = status_show m2 ->
  license_tier m1 = license_tier m2.
Proof.
  destruct m1 as [t1], m2 as [t2]; cbn [license_tier]; intros H1.
  unfold status_show at 2; cbn [license_tier].
  destruct ((t2 >=? 0) && (t2 <=? 5))%Z eqn:H2.
  - apply andb_prop in H2 as [Hlo Hhi].
    assert (H2 : (0 <= t2 <= 5)%Z) by lia.
    apply in_range_cases in H1, H2.
    destruct H1 as [-> | [-> | [-> | [-> | [-> | ->]]]]];
      destruct H2 as [-> | [-> | [-> | [-> | [-> | ->]]]]];
      vm_compute; intros E; try reflexivity; discriminate E.
  - apply in_range_cases in H1.
    destruct H1 as [-> | [-> | [-> | [-> | [-> | ->]]]]];
      vm_compute; intros E; discriminate E.
Qed.

Lemma status_show_identifies_enumerated_tier_witness :
  (0 <= license_tier module_loaded <= 5)%Z
  /\ status_show module_loaded = status_show {| license_tier := 2 |}
  /\ license_tier module_loaded = license_tier {| license_tier := 2 |}.
Proof.
  assert (H : (0 <= license_tier module_loaded <= 5)%Z) by (vm_compute; split; discriminate).
  assert (E : status_show module_loaded = status_show {| license_tier := 2 |})
    by reflexivity.
  split; [exact H|]; split; [exact E|].
  exact (status_show_identifies_enumerated_tier _ _ H E).
Defined.

Lemma kobject_put_absent (name : string) (t : sysfs) :
  has_dir name t = false -> kobject_put name t = t.
Proof.
  unfold has_dir, kobject_put; induction t as [|d t IH]; simpl;
    [reflexivity|].
  destruct (String.eqb (fst d) name); simpl; [discriminate|].
  intros H; now rewrite IH.
Qed.

Lemma kobject_put_last (name : string) (files : list kobj_attribute)
      (t : sysfs) :
  has_dir name t = false -> kobject_put name (t ++ [(name, files)])%list = t.
Proof.
  intros H; unfold kobject_put; rewrite filter_app; simpl.
  rewrite String.eqb_refl; simpl; rewrite app_nil_r.
  now apply kobject_put_absent.
Qed.

Lemma map_dir_absent (name : string)
      (g : string * list kobj_attribute -> string * list kobj_attribute)
      (t : sysfs) :
  has_dir name t = false ->
  map (fun d => if String.eqb (fst d) name then g d else d) t = t.
Proof.
  unfold has_dir; induction t as [|d t IH]; simpl; [reflexivity|].
  destruct (String.eqb (fst d) name); simpl; [discriminate|].
  intros H; now rewrite IH.
Qed.

Lemma find_dir_new (name : string) (files : list kobj_attribute) (t : sysfs) :
  has_dir name t = false -> find_dir name (t ++ [(name, files)])%list = Some files.
Proof.
  unfold has_dir, find_dir; induction t as [|d t IH]; simpl.
  - now rewrite String.eqb_refl.
  - destruct (String.eqb (fst d) name); simpl; [discriminate | exact IH].
Qed.

Lemma find_dir_other (dir name : string) (files : list kobj_attribute)
      (t : sysfs) :
  dir <> name -> find_dir dir (t ++ [(name, files)])%list = find_dir dir t.
Proof.
  intros Hne; unfold find_dir; induction t as [|d t IH]; simpl.
  - destruct (String.eqb_spec name dir); [congruence | reflexivity].
  - destruct (String.eqb (fst d) dir); [reflexivity | exact IH].
Qed.

Lemma find_dir_absent (name : string) (t : sysfs) :
  has_dir name t = false -> find_dir name t = None.
Proof.
  unfold has_dir, find_dir; induction t as [|d t IH]; simpl; [reflexivity|].
  destruct (String.eqb (fst d) name); simpl; [discriminate | exact IH].
Qed.

Ltac mc_run :=
  unfold printk, set_sysfs, set_kobj;
  cbn [statics aegis_kobj sys_kernel klog].

(** The three ways [aegis_lkm_init] of the freemium module ends. *)
Lemma freemium_init_cases (hst : sysfs_host) (mc : machine) :
  (kobject_alloc_ok hst && negb (has_dir "aegis" (sys_kernel mc)) = false
   /\ exists log,
       aegis_lkm_init hst mc =
       (Failure ENOMEM,
        {| statics := statics mc; aegis_kobj := None;
           sys_kernel := sys_kernel mc; klog := (klog mc ++ log)%list |}))
  \/ (kobject_alloc_ok hst = true /\ has_dir "aegis" (sys_kernel mc) = false
      /\ exists e log,
          create_group_ret hst = Failure e
          /\ aegis_lkm_init hst mc =
             (Failure e,
              {| statics := statics mc; aegis_kobj := Some "aegis";
                 sys_kernel := sys_kernel mc; klog := (klog mc ++ log)%list |}))
  \/ (kobject_alloc_ok hst = true /\ has_dir "aegis" (sys_kernel mc) = false
      /\ create_group_ret hst = Success
      /\ exists log,
          aegis_lkm_init hst mc =
          (Success,
           {| statics := statics mc; aegis_kobj := Some "aegis";
              sys_kernel := (sys_kernel mc ++ [("aegis", aegis_attrs)])%list;
              klog := (klog mc ++ log)%list |})).
Proof.
  unfold aegis_lkm_init, kobject_create_and_add, sysfs_create_group.
  mc_run.
  destruct (kobject_alloc_ok hst) eqn:Hk; cbn [andb];
    [destruct (has_dir "aegis" (sys_kernel mc)) eqn:Hd; cbn [negb]|].
  - left; split; [reflexivity|].
    mc_run; eexists; rewrite <- !app_assoc; reflexivity.
  - right.
    mc_run; destruct (create_group_ret hst) as [|e] eqn:Hc;
      cbn [is_zero negb]; mc_run.
    + right; repeat split.
      eexists; rewrite <- !app_assoc.
      rewrite map_app, map_dir_absent by assumption.
      cbn [map fst snd app]; rewrite String.eqb_refl; reflexivity.
    + left; repeat split.
      exists e; eexists; split; [reflexivity|].
      rewrite kobject_put_last by assumption.
      rewrite <- !app_assoc; reflexivity.
  - left; split; [reflexivity|].
    mc_run; eexists; rewrite <- !app_assoc; reflexivity.
Qed.

(** X15: loading the freemium module succeeds exactly when the kobject can
    be created (allocation succeeds and [/sys/kernel/aegis] does not exist
    yet) and [sysfs_create_group] returns [0].  It then leaves
    [/sys/kernel/aegis] holding the five attributes tier, version, status,
    features and disabled_features, and every other directory and the
    module's tier as they were. *)
Theorem freemium_init_succeeds_iff_sysfs_created
        (hst : sysfs_host) (mc : machine) :
  (fst (aegis_lkm_init hst mc) = Success <->
   kobject_alloc_ok hst = true /\ has_dir "aegis" (sys_kernel mc) = false
   /\ create_group_ret hst = Success)
  /\ (fst (aegis_lkm_init hst mc) = Success ->
      find_dir "aegis" (sys_kernel (snd (aegis_lkm_init hst mc)))
      = Some aegis_attrs
      /\ map attr_name aegis_attrs
         = ["tier"; "version"; "status"; "features"; "disabled_features"]
      /\ (forall dir, dir <> "aegis" ->
                      find_dir dir (sys_kernel (snd (aegis_lkm_init hst mc)))
                      = find_dir dir (sys_kernel mc))
      /\ statics (snd (aegis_lkm_init hst mc)) = statics mc).
Proof.
  destruct (freemium_init_cases hst mc)
    as [(Hno & log & E) | [(Hk & Hd & e & log & Hc & E)
                          | (Hk & Hd & Hc & log & E)]]; rewrite E;
    cbn [fst snd sys_kernel statics].
  - split; [|discriminate].
    split; [discriminate|]; intros (Hk & Hd & _).
    rewrite Hk, Hd in Hno; discriminate Hno.
  - split; [|discriminate].
    split; [discriminate|]; intros (_ & _ & Hc'); congruence.
  - split; [tauto|]; intros _; repeat split.
    + now apply find_dir_new.
    + intros dir Hne; now apply find_dir_other.
Qed.

(** X16: when loading fails, [/sys/kernel] is left exactly as it was found:
    the directory created before a failing [sysfs_create_group] is put
    again.  The status is [-ENOMEM] when the kobject could not be created
    (the allocation failed or [/sys/kernel/aegis] exists), and it is the
    value [sysfs_create_group] returned when the kobject was created. *)
Theorem freemium_init_failure_leaves_sysfs_untouched
        (hst : sysfs_host) (mc : machine) :
  fst (aegis_lkm_init hst mc) <> Success ->
  sys_kernel (snd (aegis_lkm_init hst mc)) = sys_kernel mc
  /\ statics (snd (aegis_lkm_init hst mc)) = statics mc
  /\ ((kobject_alloc_ok hst = false \/ has_dir "aegis" (sys_kernel mc) = true)
      /\ fst (aegis_lkm_init hst mc) = Failure ENOMEM
      /\ aegis_kobj (snd (aegis_lkm_init hst mc)) = None
      \/ kobject_alloc_ok hst = true
         /\ has_dir "aegis" (sys_kernel mc) = false
         /\ create_group_ret hst <> Success
         /\ fst (aegis_lkm_init hst mc) = create_group_ret hst).
Proof.
  destruct (freemium_init_cases hst mc)
    as [(Hno & log & E) | [(Hk & Hd & e & log & Hc & E)
                          | (Hk & Hd & Hc & log & E)]]; rewrite E;
    cbn [fst snd sys_kernel statics aegis_kobj]; intros Hfail.
  - split; [reflexivity|]; split; [reflexivity|]; left.
    split; [|split; reflexivity].
    destruct (kobject_alloc_ok hst); [right | now left].
    destruct (has_dir "aegis" (sys_kernel mc)); [reflexivity|discriminate Hno].
  - split; [reflexivity|]; split; [reflexivity|]; right.
    rewrite Hc; repeat split; try assumption; discriminate.
  - now contradiction Hfail.
Qed.

Lemma freemium_init_failure_leaves_sysfs_untouched_witness :
  fst (aegis_lkm_init {| kobject_alloc_ok := true;
                         create_group_ret := Failure EINVAL |} (insmod []))
  <> Success
  /\ fst (aegis_lkm_init {| kobject_alloc_ok := true;
                            create_group_ret := Failure EINVAL |} (insmod []))
     = Failure EINVAL
  /\ sys_kernel (snd (aegis_lkm_init
                        {| kobject_alloc_ok := true;
                           create_group_ret := Failure EINVAL |} (insmod [])))
     = sys_kernel (insmod []).
Proof.
  assert (H : fst (aegis_lkm_init
                     {| kobject_alloc_ok := true;
                        create_group_ret := Failure EINVAL |} (insmod []))
              <> Success) by (vm_compute; discriminate).
  split; [exact H|].
  destruct (freemium_init_failure_leaves_sysfs_untouched _ _ H)
    as (Hsys & _ & [(_ & Hst & _) | (_ & _ & _ & Hst)]).
  - split; [reflexivity | exact Hsys].
  - split; [exact Hst | exact Hsys].
Defined.

Lemma status_show_line (m : sysfs_module) :
  exists line, status_show m = Some (sprintf_line line).
Proof.
  unfold status_show.
  destruct ((license_tier m >=? 0) && (license_tier m <=? 5))%Z eqn:Hr.
  - apply andb_prop in Hr as [Hlo Hhi].
    destruct (array_read_total status_names (license_tier m)) as [name ->];
      [cbn; lia | now exists name].
  - now exists "unknown".
Qed.

(** X17: once the module is loaded, each of its five attributes can be read
    for every value of [license_tier]: the read never faults, the text ends
    with a newline, and the value returned is the length of the text.  No
    other file exists in [/sys/kernel/aegis]. *)
Theorem loaded_attributes_read_as_lines
        (hst : sysfs_host) (mc mc' : machine) :
  aegis_lkm_init hst mc = (Success, mc') ->
  (forall a, In a aegis_attrs ->
             exists line,
               sysfs_read mc' "aegis" (attr_name a)
               = Text (Z.of_nat (String.length (line ++ LF))) (line ++ LF))
  /\ (forall file, ~ In file (map attr_name aegis_attrs) ->
                   sysfs_read mc' "aegis" file = NoSuchFile).
Proof.
  intros E.
  destruct (freemium_init_cases hst mc)
    as [(_ & log & E') | [(_ & _ & e & log & _ & E')
                         | (_ & Hd & _ & log & E')]];
    rewrite E' in E; try discriminate E.
  injection E as <-; unfold sysfs_read; cbn [sys_kernel statics].
  rewrite find_dir_new by assumption; split.
  - intros a Ha; simpl in Ha.
    destruct Ha as [<-|[<-|[<-|[<-|[<-|[]]]]]];
      cbn [find_attr find aegis_attrs attr_name attr_show tier_attribute
           version_attribute status_attribute features_attribute
           disabled_features_attribute String.eqb Ascii.eqb Bool.eqb].
    + exists (NilEmpty.string_of_int (Z.to_int (license_tier (statics mc)))).
      reflexivity.
    + exists AEGIS_VERSION; reflexivity.
    + destruct (status_show_line (statics mc)) as [line ->].
      exists line; reflexivity.
    + exists (substring 0 (String.length freemium_features - 1)
                        freemium_features); reflexivity.
    + exists (substring 0 (String.length disabled_features - 1)
                        disabled_features); reflexivity.
  - intros file Hfile; unfold find_attr; cbn [find aegis_attrs].
    cbn [tier_attribute version_attribute status_attribute features_attribute
         disabled_features_attribute attr_name].
    cbn [map aegis_attrs In] in Hfile.
    cbn [tier_attribute version_attribute status_attribute features_attribute
         disabled_features_attribute attr_name] in Hfile.
    repeat match goal with
           | |- context [String.eqb ?n file] =>
               destruct (String.eqb_spec n file); [exfalso; tauto|]
           end.
    reflexivity.
Qed.

Lemma loaded_attributes_read_as_lines_witness :
  aegis_lkm_init {| kobject_alloc_ok := true; create_group_ret := Success |}
                 (insmod [])
  = (Success,
     snd (aegis_lkm_init
            {| kobject_alloc_ok := true; create_group_ret := Success |}
            (insmod [])))
  /\ (forall a, In a aegis_attrs ->
                exists line,
                  sysfs_read
                    (snd (aegis_lkm_init
                            {| kobject_alloc_ok := true;
                               create_group_ret := Success |} (insmod [])))
                    "aegis" (attr_name a)
                  = Text (Z.of_nat (String.length (line ++ LF))) (line ++ LF))
  /\ (forall file, ~ In file (map attr_name aegis_attrs) ->
                   sysfs_read
                     (snd (aegis_lkm_init
                             {| kobject_alloc_ok := true;
                                create_group_ret := Success |} (insmod [])))
                     "aegis" file = NoSuchFile).
Proof.
  assert (E : aegis_lkm_init
                {| kobject_alloc_ok := true; create_group_ret := Success |}
                (insmod [])
              = (Success,
                 snd (aegis_lkm_init
                        {| kobject_alloc_ok := true;
                           create_group_ret := Success |} (insmod []))))
    by reflexivity.
  split; [exact E|].
  exact (loaded_attributes_read_as_lines _ _ _ E).
Defined.

(** X18: unloading undoes loading: after a successful [aegis_lkm_init],
    [aegis_lkm_exit] leaves [/sys/kernel] exactly as it was before the load,
    so that none of the attributes can be read any more. *)
Theorem freemium_exit_undoes_init (hst : sysfs_host) (mc mc' : machine) :
  aegis_lkm_init hst mc = (Success, mc') ->
  sys_kernel (aegis_lkm_exit mc') = sys_kernel mc
  /\ statics (aegis_lkm_exit mc') = statics mc
  /\ forall file, sysfs_read (aegis_lkm_exit mc') "aegis" file = NoSuchFile.
Proof.
  intros E.
  destruct (freemium_init_cases hst mc)
    as [(_ & log & E') | [(_ & _ & e & log & _ & E')
                         | (_ & Hd & _ & log & E')]];
    rewrite E' in E; try discriminate E.
  injection E as <-.
  assert (Et : sys_kernel
                 (aegis_lkm_exit
                    {| statics := statics mc; aegis_kobj := Some "aegis";
                       sys_kernel :=
                         (sys_kernel mc ++ [("aegis", aegis_attrs)])%list;
                       klog := (klog mc ++ log)%list |})
               = sys_kernel mc).
  { unfold aegis_lkm_exit; mc_run; unfold sysfs_remove_group.
    rewrite map_app, map_dir_absent by assumption.
    cbn [map fst snd]; rewrite String.eqb_refl.
    change (filter (fun a => negb (in_group aegis_attrs a)) aegis_attrs)
      with (@nil kobj_attribute).
    now apply kobject_put_last. }
  split; [exact Et|]; split; [reflexivity|].
  intros file; unfold sysfs_read; rewrite Et.
  now rewrite find_dir_absent.
Qed.

Lemma freemium_exit_undoes_init_witness :
  aegis_lkm_init {| kobject_alloc_ok := true; create_group_ret := Success |}
                 (insmod [("mm", [])])
  = (Success,
     snd (aegis_lkm_init
            {| kobject_alloc_ok := true; create_group_ret := Success |}
            (insmod [("mm", [])])))
  /\ sys_kernel
       (aegis_lkm_exit
          (snd (aegis_lkm_init
                  {| kobject_alloc_ok := true; create_group_ret := Success |}
                  (insmod [("mm", [])]))))
     = sys_kernel (insmod [("mm", [])])
  /\ statics
       (aegis_lkm_exit
          (snd (aegis_lkm_init
                  {| kobject_alloc_ok := true; create_group_ret := Success |}
                  (insmod [("mm", [])]))))
     = statics (insmod [("mm", [])])
  /\ forall file,
      sysfs_read
        (aegis_lkm_exit
           (snd (aegis_lkm_init
                   {| kobject_alloc_ok := true; create_group_ret := Success |}
                   (insmod [("mm", [])]))))
        "aegis" file = NoSuchFile.
Proof.
  assert (E : aegis_lkm_init
                {| kobject_alloc_ok := true; create_group_ret := Success |}
                (insmod [("mm", [])])
              = (Success,
                 snd (aegis_lkm_init
                        {| kobject_alloc_ok := true;
                           create_group_ret := Success |}
                        (insmod [("mm", [])]))))
    by reflexivity.
  split; [exact E|].
  exact (freemium_exit_undoes_init _ _ _ E).
Defined.

Lemma find_dir_remove_group_other (dir kobj : string)
      (grp : list kobj_attribute) (t : sysfs) :
  dir <> kobj ->
  find_dir dir (sysfs_remove_group kobj grp t) = find_dir dir t.
Proof.
  intros Hne; unfold find_dir, sysfs_remove_group.
  induction t as [|d t IH]; simpl; [reflexivity|].
  destruct (String.eqb_spec (fst d) kobj) as [Ek|Nk]; simpl.
  - destruct (String.eqb_spec (fst d) dir); [congruence | exact IH].
  - destruct (String.eqb (fst d) dir); [reflexivity | exact IH].
Qed.

Lemma find_dir_put_other (dir kobj : string) (t : sysfs) :
  dir <> kobj -> find_dir dir (kobject_put kobj t) = find_dir dir t.
Proof.
  intros Hne; unfold find_dir, kobject_put.
  induction t as [|d t IH]; simpl; [reflexivity|].
  destruct (String.eqb_spec (fst d) kobj) as [Ek|Nk]; simpl.
  - destruct (String.eqb_spec (fst d) dir); [congruence | exact IH].
  - destruct (String.eqb (fst d) dir); [reflexivity | exact IH].
Qed.

(** What every load and unload keeps. *)
Lemma lkm_reachable_keeps (t : sysfs) (mc : machine) :
  lkm_reachable t mc ->
  statics mc = module_loaded
  /\ (aegis_kobj mc = None \/ aegis_kobj mc = Some "aegis")
  /\ forall dir, dir <> "aegis" ->
                 find_dir dir (sys_kernel mc) = find_dir dir t.
Proof.
  induction 1 as [|mc mc' _ (Hst & Hk & Hdirs) Hstep].
  - repeat split; now left.
  - destruct Hstep as [hst mc mc' E | mc].
    + destruct (freemium_init_cases hst mc)
        as [(_ & log & E') | [(_ & _ & e & log & _ & E')
                             | (_ & Hd & _ & log & E')]];
        rewrite E' in E; try discriminate E.
      injection E as <-; cbn [statics aegis_kobj sys_kernel].
      split; [exact Hst|]; split; [now right|].
      intros dir Hne; rewrite find_dir_other by assumption; now apply Hdirs.
    + unfold aegis_lkm_exit; mc_run.
      destruct Hk as [Hk|Hk]; rewrite Hk; mc_run.
      * split; [exact Hst|]; split; [now left | exact Hdirs].
      * split; [exact Hst|]; split; [now right|].
        intros dir Hne.
        rewrite find_dir_put_other, find_dir_remove_group_other by assumption.
        now apply Hdirs.
Qed.

(** X19: the freemium module never changes its tier.  In every state reached
    from [insmod] by successful loads and unloads, [license_tier] is
    [AEGIS_LICENSE_TIER] = 2, the [tier] attribute shows "2" and the [status]
    attribute shows the tier named by [MODULE_INFO(tier, ...)], "freemium". *)
Theorem freemium_tier_never_changes (t : sysfs) (mc : machine) :
  lkm_reachable t mc ->
  license_tier (statics mc) = 2%Z
  /\ snd (tier_show (statics mc)) = "2" ++ LF
  /\ option_map snd (status_show (statics mc)) = Some (modinfo_tier ++ LF).
Proof.
  intros Hr; destruct (lkm_reachable_keeps t mc Hr) as (-> & _).
  repeat split.
Qed.

Lemma freemium_tier_never_changes_witness :
  lkm_reachable [] (aegis_lkm_exit
                      (snd (aegis_lkm_init
                              {| kobject_alloc_ok := true;
                                 create_group_ret := Success |} (insmod []))))
  /\ license_tier
       (statics (aegis_lkm_exit
                   (snd (aegis_lkm_init
                           {| kobject_alloc_ok := true;
                              create_group_ret := Success |} (insmod [])))))
     = 2%Z
  /\ snd (tier_show
            (statics (aegis_lkm_exit
                        (snd (aegis_lkm_init
                                {| kobject_alloc_ok := true;
                                   create_group_ret := Success |}
                                (insmod []))))))
     = "2" ++ LF
  /\ option_map snd
       (status_show
          (statics (aegis_lkm_exit
                      (snd (aegis_lkm_init
                              {| kobject_alloc_ok := true;
                                 create_group_ret := Success |}
                              (insmod []))))))
     = Some (modinfo_tier ++ LF).
Proof.
  assert (Hr : lkm_reachable
                 [] (aegis_lkm_exit
                       (snd (aegis_lkm_init
                               {| kobject_alloc_ok := true;
                                  create_group_ret := Success |}
                               (insmod []))))).
  { eapply lkm_next; [|apply lkm_exit].
    eapply lkm_next; [apply lkm_insmod|].
    eapply lkm_init
      with (hst := {| kobject_alloc_ok := true; create_group_ret := Success |}).
    reflexivity. }
  split; [exact Hr|].
  exact (freemium_tier_never_changes _ _ Hr).
Defined.

(** X20: the freemium module touches no directory of [/sys/kernel] but its
    own: in every state reached from [insmod] by successful loads and
    unloads, every directory other than [aegis] holds what it held when the
    module was inserted. *)
Theorem freemium_touches_only_its_directory
        (t : sysfs) (mc : machine) (dir : string) :
  lkm_reachable t mc ->
  dir <> "aegis" ->
  find_dir dir (sys_kernel mc) = find_dir dir t.
Proof.
  intros Hr Hne; destruct (lkm_reachable_keeps t mc Hr) as (_ & _ & Hdirs).
  now apply Hdirs.
Qed.

Lemma freemium_touches_only_its_directory_witness :
  lkm_reachable [("mm", [])]
                (snd (aegis_lkm_init
                        {| kobject_alloc_ok := true;
                           create_group_ret := Success |}
                        (insmod [("mm", [])])))
  /\ "mm" <> "aegis"
  /\ find_dir "mm"
       (sys_kernel (snd (aegis_lkm_init
                           {| kobject_alloc_ok := true;
                              create_group_ret := Success |}
                           (insmod [("mm", [])]))))
     = find_dir "mm" [("mm", [])].
Proof.
  assert (Hr : lkm_reachable
                 [("mm", [])]
                 (snd (aegis_lkm_init
                         {| kobject_alloc_ok := true;
                            create_group_ret := Success |}
                         (insmod [("mm", [])])))).
  { eapply lkm_next; [apply lkm_insmod|].
    eapply lkm_init
      with (hst := {| kobject_alloc_ok := true; create_group_ret := Success |}).
    reflexivity. }
  assert (Hne : "mm" <> "aegis") by discriminate.
  split; [exact Hr|]; split; [exact Hne|].
  exact (freemium_touches_only_its_directory _ _ "mm" Hr Hne).
Defined.

(** X23: the module's metadata agrees with its attributes: every feature
    named by [MODULE_INFO(features, ...)] is listed by the [features]
    attribute and by none of the lines of [disabled_features], whatever the
    tier code. *)
Theorem modinfo_features_are_enabled (m : sysfs_module) (f : string) :
  In f (fields "," modinfo_features) ->
  In f (featuresFor m) /\ ~ In f (disabledFeaturesFor m).
Proof.
  assert (En : featuresFor m =
               ["basic_monitoring"; "gaming_optimization"; "community_support";
                "proton_wine"; "system_utilities"]) by reflexivity.
  assert (Ed : disabledFeaturesFor m =
               ["priority_updates"; "ai_optimization"; "professional_support";
                "advanced_monitoring"; "kernel_enhancements";
                "enterprise_features"]) by reflexivity.
  rewrite En, Ed.
  change (fields "," modinfo_features)
    with ["basic_monitoring"; "gaming_optimization"; "community_support"].
  simpl; intros [<-|[<-|[<-|[]]]]; (split; [tauto|]);
    intros H; repeat (destruct H as [H|H]; [discriminate H|]); exact H.
Qed.

Lemma modinfo_features_are_enabled_witness :
  In "gaming_optimization" (fields "," modinfo_features)
  /\ In "gaming_optimization" (featuresFor module_loaded)
  /\ ~ In "gaming_optimization" (disabledFeaturesFor module_loaded).
Proof.
  assert (H : In "gaming_optimization" (fields "," modinfo_features))
    by (vm_compute; tauto).
  split; [exact H|].
  exact (modinfo_features_are_enabled module_loaded _ H).
Defined.

End FreemiumLife.
